(** * diskquota: the active-table detector (gp_activetable.c)

    A shallow embedding of the active-table module of the diskquota
    extension: the storage-event probes, the segment-local
    [diskquota_fetch_table_stat] service with its two modes, and the
    coordinator-side loading and aggregation of table sizes.

    Shared memory, the server log, the LWLocks held and the resources of the
    running transaction are threaded through a state-and-error monad;
    [ereport(ERROR)] is the monad's failure.  The dynahash tables are finite
    sets and finite maps, a [hash_seq_search] loop is a fold over their
    elements.  A ghost counter in the state records the accesses to the
    shared table of active files that are made without its lock held for
    writing. *)

From Stdlib Require Import ZArith String List Lia.
From stdpp Require Import base gmap sets list strings pretty.

Local Open Scope Z_scope.

(** ** Host types *)

(** [Oid] is the host's unsigned 32-bit object identifier. *)
Abbreviation Oid := Z.

Definition InvalidOid : Oid := 0.
Definition FirstNormalObjectId : Oid := 16384.
Definition RelationRelationId : Oid := 1259.

(** [Size] is [size_t], 64 bits wide: arithmetic on it wraps. *)
Definition Size_modulus : Z := 2 ^ 64.
Definition to_Size (z : Z) : Z := z mod Size_modulus.

Record RelFileNode := {
  spcNode : Oid;
  dbNode : Oid;
  relNode : Oid
}.

Record RelFileNodeBackend := {
  node : RelFileNode;
  backend : Z
}.

Inductive ObjectAccessType :=
| OAT_POST_CREATE
| OAT_DROP
| OAT_POST_ALTER
| OAT_NAMESPACE_SEARCH
| OAT_FUNCTION_EXECUTE.

Inductive GpRoleValue :=
| GP_ROLE_UNDEFINED
| GP_ROLE_UTILITY
| GP_ROLE_DISPATCH
| GP_ROLE_EXECUTE.

Global Instance ObjectAccessType_eq_dec : EqDecision ObjectAccessType.
Proof. solve_decision. Defined.

Global Instance GpRoleValue_eq_dec : EqDecision GpRoleValue.
Proof. solve_decision. Defined.

(** ** Entries of the module's hash tables (gp_activetable.h) *)

(** Key and entry of [active_tables_map] coincide
    ([keysize = entrysize = sizeof(DiskQuotaActiveTableFileEntry)]). *)
Record DiskQuotaActiveTableFileEntry := {
  dbid : Oid;
  relfilenode : Oid;
  tablespaceoid : Oid
}.

Record TableEntryKey := {
  key_reloid : Oid;
  key_segid : Z
}.

Record DiskQuotaActiveTableEntry := {
  reloid : Oid;
  segid : Z;
  tablesize : Z
}.

Global Instance DiskQuotaActiveTableFileEntry_eq_dec :
  EqDecision DiskQuotaActiveTableFileEntry.
Proof. solve_decision. Defined.

Global Instance TableEntryKey_eq_dec : EqDecision TableEntryKey.
Proof. solve_decision. Defined.

Global Instance DiskQuotaActiveTableEntry_eq_dec :
  EqDecision DiskQuotaActiveTableEntry.
Proof. solve_decision. Defined.

Global Instance DiskQuotaActiveTableFileEntry_countable :
  Countable DiskQuotaActiveTableFileEntry.
Proof.
  refine (inj_countable'
            (λ e, (dbid e, relfilenode e, tablespaceoid e))
            (λ t, {| dbid := t.1.1; relfilenode := t.1.2;
                     tablespaceoid := t.2 |}) _).
  by intros [].
Defined.

Global Instance TableEntryKey_countable : Countable TableEntryKey.
Proof.
  refine (inj_countable'
            (λ k, (key_reloid k, key_segid k))
            (λ p, {| key_reloid := p.1; key_segid := p.2 |}) _).
  by intros [].
Defined.

(** ** The relation cache (relation_cache.c) *)

(** Modelled from the spec: relation_cache.c is not part of the sources at
    hand.  An entry carries the attributes the spec lists for a
    RelationCacheEntry; the cache is keyed by relation id. *)
Record DiskQuotaRelationCacheEntry := {
  relid : Oid;
  primary_table_relid : Oid;
  owneroid : Oid;
  namespaceoid : Oid;
  rnode : RelFileNodeBackend;
  relstorage : Z;
  auxrel_oid : list Oid
}.

(** Modelled from the spec: [evict(relation_id | relfilenode_id)] removes the
    entry; keyed by relfilenode it scans for the matching entries.  The
    hook passes [InvalidOid] as relation id, which selects the scan. *)
Definition remove_cache_entry (relid relfilenode : Oid)
    (cache : gmap Oid DiskQuotaRelationCacheEntry)
    : gmap Oid DiskQuotaRelationCacheEntry :=
  if decide (relid = InvalidOid)
  then filter (λ kv, relNode (node (rnode kv.2)) ≠ relfilenode) cache
  else delete relid cache.

(** ** Process identity and state *)

(** What a backend knows about itself: its Greenplum role, the content id of
    its segment, whether the segment is a mirror, the database it is
    connected to, and the GUC sizing the shared table. *)
Record Backend := {
  Gp_role : GpRoleValue;
  GpIdentity_segindex : Z;
  IsRoleMirror : bool;
  MyDatabaseId : Oid;
  diskquota_max_active_tables : nat
}.

(** [IS_QUERY_DISPATCHER()] of the host: the coordinator has content id -1. *)
Definition IS_QUERY_DISPATCHER (B : Backend) : bool :=
  GpIdentity_segindex B =? -1.

Inductive LWLockId :=
| active_table_lock
| black_map_lock
| extension_ddl_message_lock
| extension_ddl_lock
| monitoring_dbid_cache_lock
| paused_lock
| relation_cache_lock.

Global Instance LWLockId_eq_dec : EqDecision LWLockId.
Proof. solve_decision. Defined.

Inductive LWLockMode := LW_EXCLUSIVE | LW_SHARED.

Global Instance LWLockMode_eq_dec : EqDecision LWLockMode.
Proof. solve_decision. Defined.

Inductive ErrLevel := WARNING.

(** The state a call runs against: the node's shared memory
    ([active_tables_map], [monitoring_dbid_cache], the relation cache), the
    LWLocks the backend holds, each with its mode, the warnings it has logged (newest first), and
    the relations locked by the running transaction, which a sub-transaction
    abort gives back; on the coordinator, the global [SEGCOUNT].
    [unlocked_accesses] is a ghost counter: the number of times
    [active_tables_map] was read or written while [active_table_lock] was
    not held in [LW_EXCLUSIVE] mode. *)
Record State := {
  active_tables_map : gset DiskQuotaActiveTableFileEntry;
  monitoring_dbid_cache : gset Oid;
  relation_cache : gmap Oid DiskQuotaRelationCacheEntry;
  lwlocks_held : list (LWLockId * LWLockMode);
  server_log : list (ErrLevel * string);
  xact_resources : list Oid;
  SEGCOUNT : Z;
  unlocked_accesses : nat
}.

Definition set_active_tables_map (m : gset DiskQuotaActiveTableFileEntry)
    (s : State) : State :=
  {| active_tables_map := m;
     monitoring_dbid_cache := monitoring_dbid_cache s;
     relation_cache := relation_cache s;
     lwlocks_held := lwlocks_held s;
     server_log := server_log s;
     xact_resources := xact_resources s;
     SEGCOUNT := SEGCOUNT s;
     unlocked_accesses := unlocked_accesses s |}.

Definition set_relation_cache (c : gmap Oid DiskQuotaRelationCacheEntry)
    (s : State) : State :=
  {| active_tables_map := active_tables_map s;
     monitoring_dbid_cache := monitoring_dbid_cache s;
     relation_cache := c;
     lwlocks_held := lwlocks_held s;
     server_log := server_log s;
     xact_resources := xact_resources s;
     SEGCOUNT := SEGCOUNT s;
     unlocked_accesses := unlocked_accesses s |}.

Definition set_lwlocks_held (l : list (LWLockId * LWLockMode)) (s : State)
    : State :=
  {| active_tables_map := active_tables_map s;
     monitoring_dbid_cache := monitoring_dbid_cache s;
     relation_cache := relation_cache s;
     lwlocks_held := l;
     server_log := server_log s;
     xact_resources := xact_resources s;
     SEGCOUNT := SEGCOUNT s;
     unlocked_accesses := unlocked_accesses s |}.

Definition set_server_log (l : list (ErrLevel * string)) (s : State) : State :=
  {| active_tables_map := active_tables_map s;
     monitoring_dbid_cache := monitoring_dbid_cache s;
     relation_cache := relation_cache s;
     lwlocks_held := lwlocks_held s;
     server_log := l;
     xact_resources := xact_resources s;
     SEGCOUNT := SEGCOUNT s;
     unlocked_accesses := unlocked_accesses s |}.

Definition set_xact_resources (l : list Oid) (s : State) : State :=
  {| active_tables_map := active_tables_map s;
     monitoring_dbid_cache := monitoring_dbid_cache s;
     relation_cache := relation_cache s;
     lwlocks_held := lwlocks_held s;
     server_log := server_log s;
     xact_resources := l;
     SEGCOUNT := SEGCOUNT s;
     unlocked_accesses := unlocked_accesses s |}.

Definition set_SEGCOUNT (n : Z) (s : State) : State :=
  {| active_tables_map := active_tables_map s;
     monitoring_dbid_cache := monitoring_dbid_cache s;
     relation_cache := relation_cache s;
     lwlocks_held := lwlocks_held s;
     server_log := server_log s;
     xact_resources := xact_resources s;
     SEGCOUNT := n;
     unlocked_accesses := unlocked_accesses s |}.

Definition set_unlocked_accesses (n : nat) (s : State) : State :=
  {| active_tables_map := active_tables_map s;
     monitoring_dbid_cache := monitoring_dbid_cache s;
     relation_cache := relation_cache s;
     lwlocks_held := lwlocks_held s;
     server_log := server_log s;
     xact_resources := xact_resources s;
     SEGCOUNT := SEGCOUNT s;
     unlocked_accesses := n |}.

(** An access to [active_tables_map]: counted when the backend does not
    hold [active_table_lock] as a writer. *)
Definition touch_active_tables_map (s : State) : State :=
  if decide ((active_table_lock, LW_EXCLUSIVE) ∈ lwlocks_held s) then s
  else set_unlocked_accesses (S (unlocked_accesses s)) s.

(** ** The monad: state, and [ereport(ERROR)] as failure *)

Inductive Outcome (A : Type) :=
| Returned (a : A) (s : State)
| Raised (msg : string) (s : State).
Arguments Returned {A} a s.
Arguments Raised {A} msg s.

Definition M (A : Type) : Type := State → Outcome A.

Global Instance M_ret : MRet M := λ A a s, Returned a s.

Global Instance M_bind : MBind M := λ A B f m s,
  match m s with
  | Returned a s' => f a s'
  | Raised msg s' => Raised msg s'
  end.

(** Readers of an outcome: whether control came back normally, and the
    state the call left behind. *)
Definition returned {A} (o : Outcome A) : bool :=
  match o with
  | Returned _ _ => true
  | Raised _ _ => false
  end.

Definition state_after {A} (o : Outcome A) : State :=
  match o with
  | Returned _ s => s
  | Raised _ s => s
  end.

Definition get_state : M State := λ s, Returned s s.
Definition modify_state (f : State → State) : M unit := λ s, Returned tt (f s).

(** [ereport(ERROR, ...)]: control leaves the function. *)
Definition ereport_ERROR {A} (msg : string) : M A := λ s, Raised msg s.

(** [ereport(WARNING, ...)] and [elog(WARNING, ...)]: a line in the log. *)
Definition ereport_WARNING (msg : string) : M unit :=
  modify_state (λ s, set_server_log ((WARNING, msg) :: server_log s) s).

Fixpoint remove_first (l : LWLockId) (held : list (LWLockId * LWLockMode))
    : list (LWLockId * LWLockMode) :=
  match held with
  | [] => []
  | l' :: rest => if decide (l = l'.1) then rest else l' :: remove_first l rest
  end.

Definition LWLockAcquire (l : LWLockId) (mode : LWLockMode) : M unit :=
  modify_state (λ s, set_lwlocks_held ((l, mode) :: lwlocks_held s) s).

Definition LWLockRelease (l : LWLockId) : M unit :=
  modify_state (λ s, set_lwlocks_held (remove_first l (lwlocks_held s)) s).

(** ** dynahash on the shared table *)

(** [hash_search(active_tables_map, &item, HASH_ENTER_NULL, &found)].  The
    table is created by [init_shm_worker_active_tables] with both its
    initial and its maximal size set to [diskquota_max_active_tables]; a new
    key is entered while there is room, and [NULL] comes back, with nothing
    entered, once the table holds that many entries.  The result is
    [(entry != NULL, found)]. *)
Definition hash_search_HASH_ENTER_NULL (B : Backend)
    (item : DiskQuotaActiveTableFileEntry) : M (bool * bool) := λ s,
  let s := touch_active_tables_map s in
  if decide (item ∈ active_tables_map s) then Returned (true, true) s
  else if decide (size (active_tables_map s) < diskquota_max_active_tables B)%nat
  then Returned (true, false)
         (set_active_tables_map ({[item]} ∪ active_tables_map s) s)
  else Returned (false, false) s.

(** [hash_seq_init(&iter, active_tables_map)] and the [hash_seq_search]
    calls of a scan: the entries of the shared table. *)
Definition hash_seq_search_active_tables_map
    : M (list DiskQuotaActiveTableFileEntry) := λ s,
  Returned (elements (active_tables_map s)) (touch_active_tables_map s).

(** The [hash_search(active_tables_map, entry, HASH_REMOVE, NULL)] calls of
    a scan, which leave [m] in the shared table. *)
Definition hash_search_HASH_REMOVE
    (m : gset DiskQuotaActiveTableFileEntry) : M unit := λ s,
  Returned tt (set_active_tables_map m (touch_active_tables_map s)).

(** [init_shm_worker_active_tables], at server start: [ShmemInitHash]
    creates [active_tables_map], empty, with [diskquota_max_active_tables]
    as its initial and its maximal size. *)
Definition init_shm_worker_active_tables : M unit :=
  modify_state (set_active_tables_map ∅).

(** [hash_search(monitoring_dbid_cache, &dbid, HASH_FIND, &found)]. *)
Definition hash_search_monitoring_dbid_cache (dbid : Oid) : M bool := λ s,
  Returned (bool_decide (dbid ∈ monitoring_dbid_cache s)) s.

(** ** Host services *)

(** A libpq result as the coordinator reads it: its status, its number of
    columns, and its rows.  A field is kept as the number its text denotes,
    which is what [atooid], [atoll] and [atoi] hand back. *)
Record PGresult := {
  PQresultStatus : Z;
  PQnfields : Z;
  PQtuples : list (list Z)
}.

Definition PGRES_TUPLES_OK : Z := 2.

(** What [SPI_execute] leaves behind: the return code, the attribute types
    of [SPI_tuptable->tupdesc], and the rows with their nulls. *)
Record SPITupleTable := {
  SPI_result : Z;
  tupdesc_atttypid : list Oid;
  SPI_vals : list (list (option Z))
}.

Definition SPI_OK_SELECT : Z := 5.
Definition OIDOID : Oid := 26.
Definition INT8OID : Oid := 20.
Definition INT2OID : Oid := 21.

(** The functions the module calls but does not define, taken as
    parameters.  From the server: the hooks that were installed before
    [init_active_table_hook], the SPI connection and [SPI_execute], the
    dispatcher, [errno], [get_database_name], [pg_table_size], which is given the relations the
    transaction has locked and returns them with those it locked itself
    and either an error message or the size, and the fault injector, which
    names the error an armed fault raises.  From the extension's other
    files: the rest of the relation cache interface (relation_cache.c),
    reading and rewriting the cache, and [get_ext_major_version]
    (diskquota_utility.c). *)
Record Host := {
  prev_file_create_hook : option (RelFileNodeBackend → M unit);
  prev_file_extend_hook : option (RelFileNodeBackend → M unit);
  prev_file_truncate_hook : option (RelFileNodeBackend → M unit);
  prev_file_unlink_hook : option (RelFileNodeBackend → M unit);
  prev_object_access_hook :
    option (ObjectAccessType → Oid → Oid → Z → M unit);
  update_relation_cache :
    Oid → gmap Oid DiskQuotaRelationCacheEntry
    → gmap Oid DiskQuotaRelationCacheEntry;
  remove_committed_relation_from_cache :
    gmap Oid DiskQuotaRelationCacheEntry
    → gmap Oid DiskQuotaRelationCacheEntry;
  get_relid_by_relfilenode :
    RelFileNode → gmap Oid DiskQuotaRelationCacheEntry → Oid;
  get_primary_table_oid :
    Oid → gmap Oid DiskQuotaRelationCacheEntry → Oid;
  SPI_connect_ok : bool;
  get_ext_major_version : Z;
  pg_table_size : Oid → list Oid → list Oid * (string + Z);
  fault_injector : string → option string;
  CdbDispatchCommand : string → list PGresult;
  SPI_execute : string → SPITupleTable;
  errno : Z;
  get_database_name : Oid → string
}.

(** ** Storage-event probes *)

(** Chaining to the hook that was installed before: called when not null. *)
Definition call_prev_hook {A} (prev : option (A → M unit)) (a : A) : M unit :=
  match prev with
  | Some hook => hook a
  | None => mret tt
  end.

(** The entry a storage-node descriptor stands for: the zeroed [item] with
    its three fields assigned. *)
Definition item_of (relFileNode : RelFileNodeBackend)
    : DiskQuotaActiveTableFileEntry :=
  {| dbid := dbNode (node relFileNode);
     relfilenode := relNode (node relFileNode);
     tablespaceoid := spcNode (node relFileNode) |}.

Section Probes.
Context (host : Host) (B : Backend).

(** Common function for reporting active tables: file events (create,
    extend, truncate) are treated the same, the relfilenode is put into
    [active_tables_map]. *)
Definition report_active_table_helper (relFileNode : RelFileNodeBackend)
    : M unit :=
  let dbid := dbNode (node relFileNode) in
  (* not collected on the master or on a mirror segment *)
  if IS_QUERY_DISPATCHER B || IsRoleMirror B then mret tt
  else
    found ← hash_search_monitoring_dbid_cache dbid;
    if negb found then mret tt
    else
      let item := item_of relFileNode in
      LWLockAcquire active_table_lock LW_EXCLUSIVE;;
      r ← hash_search_HASH_ENTER_NULL B item;
      (* [*entry = item] rewrites the key just entered *)
      (if negb r.2 && negb r.1
       then ereport_WARNING "Share memory is not enough for active tables."
       else mret tt);;
      LWLockRelease active_table_lock.

Definition active_table_hook_smgrcreate (rnode : RelFileNodeBackend)
    : M unit :=
  call_prev_hook (prev_file_create_hook host) rnode;;
  report_active_table_helper rnode.

Definition active_table_hook_smgrextend (rnode : RelFileNodeBackend)
    : M unit :=
  call_prev_hook (prev_file_extend_hook host) rnode;;
  report_active_table_helper rnode.

Definition active_table_hook_smgrtruncate (rnode : RelFileNodeBackend)
    : M unit :=
  call_prev_hook (prev_file_truncate_hook host) rnode;;
  report_active_table_helper rnode.

Definition active_table_hook_smgrunlink (rnode : RelFileNodeBackend)
    : M unit :=
  call_prev_hook (prev_file_unlink_hook host) rnode;;
  modify_state (λ s,
    set_relation_cache
      (remove_cache_entry InvalidOid (relNode (node rnode))
         (relation_cache s)) s).

Definition report_relation_cache_helper (relid : Oid) : M unit :=
  if IS_QUERY_DISPATCHER B || IsRoleMirror B then mret tt
  else
    found ← hash_search_monitoring_dbid_cache (MyDatabaseId B);
    if negb found then mret tt
    else
      modify_state (λ s,
        set_relation_cache
          (update_relation_cache host relid (relation_cache s)) s).

Definition object_access_hook_QuotaStmt (access : ObjectAccessType)
    (classId objectId : Oid) (subId : Z) : M unit :=
  (match prev_object_access_hook host with
   | Some prev => prev access classId objectId subId
   | None => mret tt
   end);;
  if negb (classId =? RelationRelationId) || negb (subId =? 0)
  then mret tt
  else if objectId <? FirstNormalObjectId then mret tt
  else if negb (bool_decide (access = OAT_POST_CREATE)) then mret tt
  else report_relation_cache_helper objectId.

End Probes.

(** The four subscription points of the storage manager, and what
    [init_active_table_hook] registers at each: the previous hook is saved
    and the module's own hook is installed in its place. *)
Inductive FileProbe := on_create | on_extend | on_truncate | on_unlink.

Definition prev_hook_of (host : Host) (p : FileProbe)
    : option (RelFileNodeBackend → M unit) :=
  match p with
  | on_create => prev_file_create_hook host
  | on_extend => prev_file_extend_hook host
  | on_truncate => prev_file_truncate_hook host
  | on_unlink => prev_file_unlink_hook host
  end.

Definition file_probe (host : Host) (B : Backend) (p : FileProbe)
    : RelFileNodeBackend → M unit :=
  match p with
  | on_create => active_table_hook_smgrcreate host B
  | on_extend => active_table_hook_smgrextend host B
  | on_truncate => active_table_hook_smgrtruncate host B
  | on_unlink => active_table_hook_smgrunlink host
  end.

(** ** Segment-local size service *)

(** The [oid[]] argument as the loop of [get_active_tables_stats] reads it:
    dimensions, the optional null bitmap (one byte per eight elements, a set
    bit marking a non-null element), and the data area, which stores the
    non-null elements only. *)
Record ArrayType := {
  ARR_NDIM : Z;
  ARR_DIMS : list Z;
  ARR_NULLBITMAP : option (list Z);
  ARR_DATA : list Oid
}.

Definition ArrayGetNItems (ndim : Z) (dims : list Z) : Z :=
  if ndim <=? 0 then 0
  else foldr Z.mul 1 (take (Z.to_nat ndim) dims).

(** The loop's cursor: [ptr] indexes the data area, [bitmap] the bytes of
    the null bitmap, [bitmask] is the bit under test. *)
Record ArrayCursor := {
  ptr : nat;
  bitmap : nat;
  bitmask : Z
}.

Definition FETCH_ACTIVE_OID : Z := 0.
Definition FETCH_ACTIVE_SIZE : Z := 1.

(** [Int64GetDatum] of a [Size] and [Int16GetDatum] of an [int]. *)
Definition to_int64 (z : Z) : Z := (z + 2 ^ 63) mod 2 ^ 64 - 2 ^ 63.
Definition to_int16 (z : Z) : Z := (z + 2 ^ 15) mod 2 ^ 16 - 2 ^ 15.

Fixpoint for_each {A} (f : A → M unit) (l : list A) : M unit :=
  match l with
  | [] => mret tt
  | x :: rest => f x;; for_each f rest
  end.

(** [PG_TRY(); { body } PG_CATCH(); { handler } PG_END_TRY();] *)
Definition PG_TRY {A} (body : M A) (handler : string → M A) : M A := λ s,
  match body s with
  | Returned a s' => Returned a s'
  | Raised msg s' => handler msg s'
  end.

(** A sub-transaction owns what is acquired after its start: the savepoint
    is the resource list at [BeginInternalSubTransaction]; releasing the
    sub-transaction hands its resources to the parent, rolling it back
    restores the savepoint. *)
Definition BeginInternalSubTransaction : M (list Oid) := λ s,
  Returned (xact_resources s) s.

Definition ReleaseCurrentSubTransaction : M unit := mret tt.

Definition RollbackAndReleaseCurrentSubTransaction (savepoint : list Oid)
    : M unit :=
  modify_state (set_xact_resources savepoint).

Section SegmentService.
Context (host : Host) (B : Backend).

(** [DirectFunctionCall1(pg_table_size, relOid)]: locks what it opens and
    either returns the size or raises. *)
Definition call_pg_table_size (relOid : Oid) : M Z := λ s,
  match pg_table_size host relOid (xact_resources s) with
  | (res, inr size) => Returned size (set_xact_resources res s)
  | (res, inl msg) => Raised msg (set_xact_resources res s)
  end.

Definition SIMPLE_FAULT_INJECTOR (name : string) : M unit :=
  match fault_injector host name with
  | Some msg => ereport_ERROR msg
  | None => mret tt
  end.

(** The [else] branch of the loop body: one non-null element. *)
Definition get_active_tables_stats_element (relOid : Oid)
    (local_table : gmap TableEntryKey DiskQuotaActiveTableEntry)
    : M (gmap TableEntryKey DiskQuotaActiveTableEntry) :=
  let segId := GpIdentity_segindex B in
  let key := {| key_reloid := relOid; key_segid := segId |} in
  (* pg_table_size() may throw: it runs in a sub-transaction *)
  savepoint ← BeginInternalSubTransaction;
  size ← PG_TRY
    (size ← call_pg_table_size relOid;
     SIMPLE_FAULT_INJECTOR "diskquota_fetch_table_stat";;
     ReleaseCurrentSubTransaction;;
     mret (to_Size size))
    (λ msg,
     RollbackAndReleaseCurrentSubTransaction savepoint;;
     ereport_WARNING msg;;
     mret 0);
  mret (<[key := {| reloid := relOid; segid := segId; tablesize := size |}]>
          local_table).

(** [for (i = 0; i < nitems; i++)], with [n] iterations to go.  The
    [continue] of the null case jumps over the bitmap advance at the end
    of the body. *)
Fixpoint get_active_tables_stats_loop (array : ArrayType) (n : nat)
    (c : ArrayCursor)
    (local_table : gmap TableEntryKey DiskQuotaActiveTableEntry)
    : M (gmap TableEntryKey DiskQuotaActiveTableEntry) :=
  match n with
  | O => mret local_table
  | S n' =>
    match ARR_NULLBITMAP array with
    | Some bits =>
      if Z.land (nth (bitmap c) bits 0) (bitmask c) =? 0
      then get_active_tables_stats_loop array n' c local_table
      else
        local_table' ← get_active_tables_stats_element
                          (nth (ptr c) (ARR_DATA array) 0) local_table;
        let bitmask' := Z.shiftl (bitmask c) 1 in
        get_active_tables_stats_loop array n'
          (if bitmask' =? 256
           then {| ptr := S (ptr c); bitmap := S (bitmap c); bitmask := 1 |}
           else {| ptr := S (ptr c); bitmap := bitmap c;
                   bitmask := bitmask' |})
          local_table'
    | None =>
      local_table' ← get_active_tables_stats_element
                        (nth (ptr c) (ARR_DATA array) 0) local_table;
      get_active_tables_stats_loop array n'
        {| ptr := S (ptr c); bitmap := bitmap c; bitmask := bitmask c |}
        local_table'
    end
  end.

Definition get_active_tables_stats (array : ArrayType)
    : M (gmap TableEntryKey DiskQuotaActiveTableEntry) :=
  let nitems := ArrayGetNItems (ARR_NDIM array) (ARR_DIMS array) in
  get_active_tables_stats_loop array (Z.to_nat nitems)
    {| ptr := 0; bitmap := 0; bitmask := 1 |} ∅.

(** First loop of [get_active_tables_oid]: one step of the scan of the
    shared table; the accumulator is (local file map, shared table). *)
Definition drain_step
    (acc : gset DiskQuotaActiveTableFileEntry
           * gset DiskQuotaActiveTableFileEntry)
    (e : DiskQuotaActiveTableFileEntry)
    : gset DiskQuotaActiveTableFileEntry
      * gset DiskQuotaActiveTableFileEntry :=
  if negb (dbid e =? MyDatabaseId B) then acc
  else ({[e]} ∪ acc.1, acc.2 ∖ {[e]}).

(** Move the current database's entries from shared memory to the local
    map, under the exclusive lock. *)
Definition drain_active_tables_map
    : M (gset DiskQuotaActiveTableFileEntry) :=
  LWLockAcquire active_table_lock LW_EXCLUSIVE;;
  entries ← hash_seq_search_active_tables_map;
  s ← get_state;
  let r := foldl drain_step (∅, active_tables_map s) entries in
  hash_search_HASH_REMOVE r.2;;
  LWLockRelease active_table_lock;;
  mret r.1.

(** Second loop: one step of the scan of the local file map; the
    accumulator is (stats map, local file map). *)
Definition resolve_step (cache : gmap Oid DiskQuotaRelationCacheEntry)
    (acc : gmap Oid DiskQuotaActiveTableEntry
           * gset DiskQuotaActiveTableFileEntry)
    (e : DiskQuotaActiveTableFileEntry)
    : gmap Oid DiskQuotaActiveTableEntry
      * gset DiskQuotaActiveTableFileEntry :=
  let rnode := {| dbNode := dbid e; relNode := relfilenode e;
                  spcNode := tablespaceoid e |} in
  let relOid := get_relid_by_relfilenode host rnode cache in
  if relOid =? InvalidOid then acc
  else
    let prelid := get_primary_table_oid host relOid cache in
    (match acc.1 !! prelid with
     | Some _ => acc.1
     | None => <[prelid := {| reloid := prelid; segid := -1;
                              tablesize := 0 |}]> acc.1
     end,
     acc.2 ∖ {[e]}).

Definition resolve_active_tables
    (local_active_table_file_map : gset DiskQuotaActiveTableFileEntry)
    : M (gmap Oid DiskQuotaActiveTableEntry
         * gset DiskQuotaActiveTableFileEntry) :=
  modify_state (λ s,
    set_relation_cache
      (remove_committed_relation_from_cache host (relation_cache s)) s);;
  s ← get_state;
  mret (foldl (resolve_step (relation_cache s))
          (∅, local_active_table_file_map)
          (elements local_active_table_file_map)).

(** Last block: what could not be converted to a relation oid goes back to
    shared memory to wait for the next check. *)
Definition put_back_active_tables
    (local_active_table_file_map : gset DiskQuotaActiveTableFileEntry)
    : M unit :=
  if (0 <? size local_active_table_file_map)%nat
  then
    LWLockAcquire active_table_lock LW_EXCLUSIVE;;
    for_each (λ e, _ ← hash_search_HASH_ENTER_NULL B e; mret tt)
      (elements local_active_table_file_map);;
    LWLockRelease active_table_lock
  else mret tt.

(** While [active_table_lock] is free, the file probes of the other
    backends of the segment run against the same shared memory;
    [events] are the storage events they report. *)
Definition other_backends (events : list RelFileNodeBackend) : M unit :=
  for_each (report_active_table_helper B) events.

(** [get_active_tables_oid].  [concurrent] lists the storage events that
    other backends report between the drain and the put-back, when this
    backend does not hold the lock; it is empty when none runs. *)
Definition get_active_tables_oid (concurrent : list RelFileNodeBackend)
    : M (gmap Oid DiskQuotaActiveTableEntry) :=
  local_active_table_file_map ← drain_active_tables_map;
  r ← resolve_active_tables local_active_table_file_map;
  other_backends concurrent;;
  put_back_active_tables r.2;;
  mret r.1.

(** [heap_form_tuple] over a descriptor of [natts] attributes. *)
Definition heap_form_tuple (natts : nat) (e : DiskQuotaActiveTableEntry)
    : list Z :=
  take natts [reloid e; to_int64 (tablesize e); to_int16 (segid e)].

(** [diskquota_fetch_table_stat]: the set-returning function, as the rows
    its calls return one by one. *)
Definition diskquota_fetch_table_stat (mode : Z) (array : ArrayType)
    (concurrent : list RelFileNodeBackend) : M (list (list Z)) :=
  if negb (SPI_connect_ok host)
  then ereport_ERROR "unable to connect to execute internal query"
  else
    let extMajorVersion := get_ext_major_version host in
    if bool_decide (Gp_role B = GP_ROLE_DISPATCH)
       || bool_decide (Gp_role B = GP_ROLE_UTILITY)
    then ereport_ERROR "This function must not be called on master or by user"
    else
      localCacheTable ←
        (if mode =? FETCH_ACTIVE_OID
         then t ← get_active_tables_oid concurrent;
              mret ((map_to_list t).*2)
         else if mode =? FETCH_ACTIVE_SIZE
         then t ← get_active_tables_stats array;
              mret ((map_to_list t).*2)
         else ereport_ERROR
                "Unused mode number, transaction will be aborted");
      natts ←
        (if extMajorVersion =? 1 then mret 2%nat
         else if extMajorVersion =? 2 then mret 3%nat
         else ereport_ERROR
                ("[diskquota] unknown diskquota extension version: "
                 +:+ pretty extMajorVersion));
      mret (heap_form_tuple natts <$> localCacheTable).

End SegmentService.

(** ** Coordinator: loading and aggregating table sizes *)

Definition to_int32 (z : Z) : Z := (z + 2 ^ 31) mod 2 ^ 32 - 2 ^ 31.

Definition dquote : string := String (Ascii.ascii_of_nat 34) EmptyString.

(** The command [pull_active_table_size_from_seg] dispatches. *)
Definition fetch_size_sql (active_oid_array : string) : string :=
  "select * from diskquota.diskquota_fetch_table_stat(1, '"
  +:+ active_oid_array +:+ "'::oid[])".

Section Coordinator.
Context (host : Host) (B : Backend).

(** One row of [diskquota.table_size]; a null in any of the three columns
    skips the row. *)
Definition load_table_size_row
    (local_table_stats_map : gmap TableEntryKey DiskQuotaActiveTableEntry)
    (tup : list (option Z))
    : gmap TableEntryKey DiskQuotaActiveTableEntry :=
  match nth 0 tup None with
  | None => local_table_stats_map
  | Some relOid =>
    match nth 1 tup None with
    | None => local_table_stats_map
    | Some size =>
      match nth 2 tup None with
      | None => local_table_stats_map
      | Some segid =>
        <[{| key_reloid := relOid; key_segid := segid |} :=
            {| reloid := relOid; segid := segid;
               tablesize := to_Size size |}]> local_table_stats_map
      end
    end
  end.

(** The part of [load_table_size] after the query: the checks on its
    result and the loop over its rows. *)
Definition load_table_size_result (res : SPITupleTable)
    (local_table_stats_map : gmap TableEntryKey DiskQuotaActiveTableEntry)
    : M (gmap TableEntryKey DiskQuotaActiveTableEntry) :=
  if negb (SPI_result res =? SPI_OK_SELECT)
  then ereport_ERROR
         ("[diskquota] load_table_size SPI_execute failed: error code "
          +:+ pretty (errno host))
  else
    let atts := tupdesc_atttypid res in
    if negb (Z.of_nat (length atts) =? 3)
       || negb (nth 0 atts 0 =? OIDOID)
       || negb (nth 1 atts 0 =? INT8OID)
       || negb (nth 2 atts 0 =? INT2OID)
    then ereport_ERROR
           ("[diskquota] table " +:+ dquote +:+ "table_size" +:+ dquote
            +:+ " is corrupted in database " +:+ dquote
            +:+ get_database_name host (MyDatabaseId B) +:+ dquote
            +:+ ", please recreate diskquota extension")
    else mret (foldl load_table_size_row local_table_stats_map
                 (SPI_vals res)).

(** Load table size info from [diskquota.table_size]; the query depends
    on the major version of the extension. *)
Definition load_table_size
    (local_table_stats_map : gmap TableEntryKey DiskQuotaActiveTableEntry)
    : M (gmap TableEntryKey DiskQuotaActiveTableEntry) :=
  let extMajorVersion := get_ext_major_version host in
  if extMajorVersion =? 1
  then load_table_size_result
         (SPI_execute host
            "select tableid, size, CAST(-1 AS smallint) from diskquota.table_size")
         local_table_stats_map
  else if extMajorVersion =? 2
  then load_table_size_result
         (SPI_execute host
            "select tableid, size, segid from diskquota.table_size")
         local_table_stats_map
  else ereport_ERROR
         ("[diskquota] unknown diskquota extension version: "
          +:+ pretty extMajorVersion).

(** Convert a hash map with oids into the text of an [oid[]] literal; the
    oids are printed with [%d]. *)
Definition convert_map_to_string
    (local_active_table_oid_maps : gmap Oid DiskQuotaActiveTableEntry)
    : string :=
  let nitems := size local_active_table_oid_maps in
  (foldl (λ (acc : string * nat) (entry : DiskQuotaActiveTableEntry),
            let count := S acc.2 in
            (if negb (count =? nitems)%nat
             then acc.1 +:+ pretty (to_int32 (reloid entry)) +:+ ","
             else acc.1 +:+ pretty (to_int32 (reloid entry)),
             count))
     ("{", O) ((map_to_list local_active_table_oid_maps).*2)).1
  +:+ "}".

(** The loops over the dispatch results stop at the first result that is
    not [PGRES_TUPLES_OK]. *)
Fixpoint for_each_result {A}
    (f : A → PGresult → A) (acc : A) (results : list PGresult) : M A :=
  match results with
  | [] => mret acc
  | pgresult :: rest =>
    if negb (PQresultStatus pgresult =? PGRES_TUPLES_OK)
    then ereport_ERROR
           ("[diskquota] fetching active tables, encounter unexpected result from segment: "
            +:+ pretty (PQresultStatus pgresult))
    else for_each_result f (f acc pgresult) rest
  end.

Definition pull_active_list_tuple
    (local_active_table_oid_map : gmap Oid DiskQuotaActiveTableEntry)
    (tup : list Z) : gmap Oid DiskQuotaActiveTableEntry :=
  let relOid := nth 0 tup 0 in
  match local_active_table_oid_map !! relOid with
  | Some _ => local_active_table_oid_map
  | None => <[relOid := {| reloid := relOid; segid := -1; tablesize := 0 |}]>
              local_active_table_oid_map
  end.

(** Get the oids of the tables that are active on any segment. *)
Definition pull_active_list_from_seg
    : M (gmap Oid DiskQuotaActiveTableEntry) :=
  let sql :=
    "select * from diskquota.diskquota_fetch_table_stat(0, '{}'::oid[])" in
  for_each_result
    (λ m pgresult, foldl pull_active_list_tuple m (PQtuples pgresult))
    ∅ (CdbDispatchCommand host sql).

(** Body of the inner loop of [pull_active_table_size_from_seg]: one row
    of one segment's reply, [nfields] being [PQnfields] of that reply. *)
Definition pull_active_table_size_tuple (nfields : Z)
    (local_table_stats_map : gmap TableEntryKey DiskQuotaActiveTableEntry)
    (tup : list Z) : gmap TableEntryKey DiskQuotaActiveTableEntry :=
  let relOid := nth 0 tup 0 in
  let tableSize := to_Size (nth 1 tup 0) in
  (* for extension version 1.0 the reply carries no segid *)
  let m :=
    if nfields =? 3
    then
      let segId := nth 2 tup 0 in
      let key := {| key_reloid := relOid; key_segid := segId |} in
      <[key := {| reloid := relOid; segid := segId;
                  tablesize := tableSize |}]> local_table_stats_map
    else local_table_stats_map in
  (* segid -1 holds the sum over all the segments *)
  let key := {| key_reloid := relOid; key_segid := -1 |} in
  match m !! key with
  | None => <[key := {| reloid := relOid; segid := -1;
                        tablesize := tableSize |}]> m
  | Some entry =>
    <[key := {| reloid := reloid entry; segid := segid entry;
                tablesize := to_Size (tablesize entry + tableSize) |}]> m
  end.

(** Fetch the sizes of the active tables from the segments and sum them
    into [local_table_stats_map]. *)
Definition pull_active_table_size_from_seg
    (local_table_stats_map : gmap TableEntryKey DiskQuotaActiveTableEntry)
    (active_oid_array : string)
    : M (gmap TableEntryKey DiskQuotaActiveTableEntry) :=
  let sql_command := fetch_size_sql active_oid_array in
  let cdb_pgresults := CdbDispatchCommand host sql_command in
  modify_state (set_SEGCOUNT (Z.of_nat (length cdb_pgresults)));;
  if Z.of_nat (length cdb_pgresults) <=? 0
  then ereport_ERROR
         ("[diskquota] there is no active segment, SEGCOUNT is "
          +:+ pretty (Z.of_nat (length cdb_pgresults)))
  else
    for_each_result
      (λ m pgresult,
         foldl (pull_active_table_size_tuple (PQnfields pgresult)) m
           (PQtuples pgresult))
      local_table_stats_map cdb_pgresults.

(** Interface of the module: the worker collects the active tables' disk
    usage from all the segments. *)
Definition gp_fetch_active_tables (is_init : bool)
    : M (gmap TableEntryKey DiskQuotaActiveTableEntry) :=
  let local_table_stats_map : gmap TableEntryKey DiskQuotaActiveTableEntry
    := ∅ in
  if is_init then load_table_size local_table_stats_map
  else
    (* step 1: fetch active oids from all the segments *)
    local_active_table_oid_maps ← pull_active_list_from_seg;
    let active_oid_list :=
      convert_map_to_string local_active_table_oid_maps in
    (* step 2: fetch active table sizes based on active oids *)
    pull_active_table_size_from_seg local_table_stats_map active_oid_list.

End Coordinator.

(** ** The probes as the specification words them *)

Definition overflow_warning : ErrLevel * string :=
  (WARNING, "Share memory is not enough for active tables.").

(** A file probe: nothing on the coordinator or a mirror, nothing for a
    database that is not monitored, otherwise the triple is inserted; it is
    a no-op when already present, and dropped with a warning when the map is
    full. *)
Definition file_probe_spec (B : Backend) (rnode : RelFileNodeBackend)
    : M unit := λ s,
  if IS_QUERY_DISPATCHER B || IsRoleMirror B then Returned tt s
  else if bool_decide (dbNode (node rnode) ∉ monitoring_dbid_cache s)
  then Returned tt s
  else if bool_decide (item_of rnode ∈ active_tables_map s)
  then Returned tt s
  else if bool_decide
            (size (active_tables_map s) < diskquota_max_active_tables B)%nat
  then Returned tt
         (set_active_tables_map ({[item_of rnode]} ∪ active_tables_map s) s)
  else Returned tt (set_server_log (overflow_warning :: server_log s) s).

(** Eviction by relfilenode: every cache entry stored under that
    relfilenode goes, nothing else changes. *)
Definition unlink_probe_spec (relFileNode : RelFileNodeBackend)
    : M unit := λ s,
  Returned tt
    (set_relation_cache
       (filter (λ kv : Oid * DiskQuotaRelationCacheEntry,
                  relNode (node (rnode kv.2)) ≠ relNode (node relFileNode))
          (relation_cache s)) s).

(** When the post-object-create probe reaches the relation cache. *)
Definition post_create_probe_fires (B : Backend) (access : ObjectAccessType)
    (classId objectId : Oid) (subId : Z) (s : State) : bool :=
  bool_decide (access = OAT_POST_CREATE)
  && (classId =? RelationRelationId)
  && (subId =? 0)
  && (FirstNormalObjectId <=? objectId)
  && negb (IS_QUERY_DISPATCHER B)
  && negb (IsRoleMirror B)
  && bool_decide (MyDatabaseId B ∈ monitoring_dbid_cache s).

(** ** The drain as the specification words it *)

Section DrainSpec.
Context (host : Host) (B : Backend).

(** The shared entries of the current database, and the others. *)
Definition drained (s : State) : gset DiskQuotaActiveTableFileEntry :=
  filter (λ e, dbid e = MyDatabaseId B) (active_tables_map s).

Definition kept (s : State) : gset DiskQuotaActiveTableFileEntry :=
  filter (λ e, dbid e ≠ MyDatabaseId B) (active_tables_map s).

(** The relation cache the resolution reads: the one left by
    [remove_committed_relation_from_cache]. *)
Definition swept (s : State) : gmap Oid DiskQuotaRelationCacheEntry :=
  remove_committed_relation_from_cache host (relation_cache s).

(** (db, tablespace, relfilenode) to relation id, then to the primary. *)
Definition relid_of (cache : gmap Oid DiskQuotaRelationCacheEntry)
    (e : DiskQuotaActiveTableFileEntry) : Oid :=
  get_relid_by_relfilenode host
    {| dbNode := dbid e; relNode := relfilenode e;
       spcNode := tablespaceoid e |} cache.

Definition primary_of (cache : gmap Oid DiskQuotaRelationCacheEntry)
    (e : DiskQuotaActiveTableFileEntry) : Oid :=
  get_primary_table_oid host (relid_of cache e) cache.

(** The primary relation ids of the drained entries that resolve, and the
    drained entries that do not. *)
Definition resolved_ids (s : State) : gset Oid :=
  set_map (primary_of (swept s))
    (filter (λ e, relid_of (swept s) e ≠ InvalidOid) (drained s)).

Definition unresolved (s : State) : gset DiskQuotaActiveTableFileEntry :=
  filter (λ e, relid_of (swept s) e = InvalidOid) (drained s).

(** The entry a resolved relation gets in the result. *)
Definition fresh_entry (r : Oid) : DiskQuotaActiveTableEntry :=
  {| reloid := r; segid := -1; tablesize := 0 |}.

(** The shared table after a run of [HASH_ENTER_NULL] insertions. *)
Definition enter_all (l : list DiskQuotaActiveTableFileEntry)
    (m : gset DiskQuotaActiveTableFileEntry)
    : gset DiskQuotaActiveTableFileEntry :=
  foldl (λ m e,
           if decide (e ∈ m) then m
           else if decide (size m < diskquota_max_active_tables B)%nat
                then {[e]} ∪ m else m) m l.

(** The state in which the put-back starts: the drain and the sweep have
    happened, and the other backends have reported [concurrent]. *)
Definition at_put_back (concurrent : list RelFileNodeBackend) (s : State)
    : State :=
  state_after
    (other_backends B concurrent
       (set_relation_cache (swept s) (set_active_tables_map (kept s) s))).

End DrainSpec.

(** ** The aggregation as the specification words it *)

(** The rows of all the replies, in the order the loops visit them, each
    with the column count of its reply. *)
Definition rows_of (results : list PGresult) : list (Z * list Z) :=
  results ≫= λ pgresult, (λ tup, (PQnfields pgresult, tup)) <$> PQtuples pgresult.

(** The sizes the segments report for relation [R], and their sum. *)
Definition reported_sizes (R : Oid) (rows : list (Z * list Z)) : list Z :=
  (λ row : Z * list Z, nth 1 row.2 0)
  <$> filter (λ row : Z * list Z, nth 0 row.2 0 = R) rows.

Definition sum_sizes (sizes : list Z) : Z := foldr Z.add 0 sizes.

(** Relation [R] is reported for segment [seg] with size [size]: a row of
    a three-column reply. *)
Definition reports (rows : list (Z * list Z)) (R : Oid) (seg size : Z)
    : Prop :=
  ∃ tup, (3, tup) ∈ rows ∧ nth 0 tup 0 = R ∧ nth 2 tup 0 = seg
         ∧ nth 1 tup 0 = size.

(** The replies to the size request, and their rows. *)
Definition size_replies (host : Host) (active_oid_array : string)
    : list PGresult :=
  CdbDispatchCommand host (fetch_size_sql active_oid_array).

Definition size_rows (host : Host) (active_oid_array : string)
    : list (Z * list Z) :=
  rows_of (size_replies host active_oid_array).

(** The key of relation [R] on segment [seg]; [seg = -1] is the total. *)
Definition key_of (R : Oid) (seg : Z) : TableEntryKey :=
  {| key_reloid := R; key_segid := seg |}.

(** What the map holds once the rows [rows] have been summed into an
    empty map: under key [(R, -1)] the sum, in [Size] arithmetic, of the
    sizes reported for [R]; under [(R, seg)] an entry for each report of
    [R] by segment [seg], holding a size that segment reported. *)
Definition aggregated (m : gmap TableEntryKey DiskQuotaActiveTableEntry)
    (rows : list (Z * list Z)) : Prop :=
  (∀ R, m !! key_of R (-1)
        = if decide (reported_sizes R rows = []) then None
          else Some {| reloid := R; segid := -1;
                       tablesize := to_Size (sum_sizes (reported_sizes R rows)) |})
  ∧ (∀ R seg e, seg ≠ -1 → m !! key_of R seg = Some e →
       reloid e = R ∧ segid e = seg
       ∧ ∃ size, reports rows R seg size ∧ tablesize e = to_Size size)
  ∧ (∀ R seg size, seg ≠ -1 → reports rows R seg size →
       is_Some (m !! key_of R seg)).

(** ** Sample configurations *)

(** A relation-cache entry for a primary heap relation stored under its own
    oid in the default tablespace of database 16400. *)
Definition sample_cache_entry (r : Oid) : DiskQuotaRelationCacheEntry :=
  {| relid := r;
     primary_table_relid := r;
     owneroid := 10;
     namespaceoid := 2200;
     rnode := {| node := {| spcNode := 1663; dbNode := 16400; relNode := r |};
                 backend := -1 |};
     relstorage := 104;
     auxrel_oid := [] |}.

(** A host without previously installed hooks, whose relfilenode reverse
    map answers from the relation cache, and where relation 16386 has been
    dropped: sizing it locks it and then raises.  [v] is the major version
    of the installed extension. *)
Definition sample_host_version (v : Z) : Host :=
  {| prev_file_create_hook := None;
     prev_file_extend_hook := None;
     prev_file_truncate_hook := None;
     prev_file_unlink_hook := None;
     prev_object_access_hook := None;
     update_relation_cache := λ r cache, <[r := sample_cache_entry r]> cache;
     remove_committed_relation_from_cache := λ cache, cache;
     get_relid_by_relfilenode := λ rn cache,
       match cache !! relNode rn with
       | Some e => relid e
       | None => InvalidOid
       end;
     get_primary_table_oid := λ r cache,
       match cache !! r with
       | Some e => primary_table_relid e
       | None => r
       end;
     SPI_connect_ok := true;
     get_ext_major_version := v;
     pg_table_size := λ r res,
       if r =? 16386 then (r :: res, inl "relation does not exist")
       else (r :: res, inr 8192);
     fault_injector := λ _, None;
     CdbDispatchCommand := λ _,
       [ {| PQresultStatus := PGRES_TUPLES_OK; PQnfields := 3;
            PQtuples := [[16385; 8192; 0]; [16387; 100; 0]] |};
         {| PQresultStatus := PGRES_TUPLES_OK; PQnfields := 3;
            PQtuples := [[16385; 4096; 1]] |} ];
     SPI_execute := λ _,
       {| SPI_result := SPI_OK_SELECT;
          tupdesc_atttypid := [OIDOID; INT8OID; INT2OID];
          SPI_vals := [[Some 16385; Some 12288; Some (-1)]] |};
     errno := 0;
     get_database_name := λ _, "postgres" |}.

Definition sample_host : Host := sample_host_version 2.

(** Segment 0, a primary, connected to database 16400; its shared table
    holds two entries. *)
Definition sample_segment : Backend :=
  {| Gp_role := GP_ROLE_EXECUTE;
     GpIdentity_segindex := 0;
     IsRoleMirror := false;
     MyDatabaseId := 16400;
     diskquota_max_active_tables := 2 |}.

Definition sample_coordinator : Backend :=
  {| Gp_role := GP_ROLE_DISPATCH;
     GpIdentity_segindex := -1;
     IsRoleMirror := false;
     MyDatabaseId := 16400;
     diskquota_max_active_tables := 2 |}.

Definition sample_rnode (r : Oid) : RelFileNodeBackend :=
  {| node := {| spcNode := 1663; dbNode := 16400; relNode := r |};
     backend := -1 |}.

(** Database 16400 is monitored, relation 16385 is cached, nothing is
    active yet. *)
Definition sample_state : State :=
  {| active_tables_map := ∅;
     monitoring_dbid_cache := {[16400]};
     relation_cache := {[16385 := sample_cache_entry 16385]};
     lwlocks_held := [];
     server_log := [];
     xact_resources := [];
     SEGCOUNT := 0;
     unlocked_accesses := 0 |}.

(** The same with the shared table filled to its capacity of two. *)
Definition sample_full_state : State :=
  set_active_tables_map
    {[item_of (sample_rnode 16385); item_of (sample_rnode 16390)]}
    sample_state.

(** A primary segment whose shared table has room for three entries. *)
Definition sample_segment3 : Backend :=
  {| Gp_role := GP_ROLE_EXECUTE;
     GpIdentity_segindex := 0;
     IsRoleMirror := false;
     MyDatabaseId := 16400;
     diskquota_max_active_tables := 3 |}.

(** An entry of another monitored database. *)
Definition sample_foreign_item : DiskQuotaActiveTableFileEntry :=
  {| dbid := 16401; relfilenode := 20000; tablespaceoid := 1663 |}.

(** Three active files: relation 16385, which the cache resolves, file
    16390, which it does not, and a file of database 16401. *)
Definition sample_active_state : State :=
  {| active_tables_map :=
       {[item_of (sample_rnode 16385); item_of (sample_rnode 16390);
         sample_foreign_item]};
     monitoring_dbid_cache := {[16400; 16401]};
     relation_cache := {[16385 := sample_cache_entry 16385]};
     lwlocks_held := [];
     server_log := [];
     xact_resources := [];
     SEGCOUNT := 0;
     unlocked_accesses := 0 |}.

(** Two files extended by other backends while the drain is between its
    critical sections. *)
Definition sample_concurrent : list RelFileNodeBackend :=
  [sample_rnode 16391; sample_rnode 16392].

(** The array [{NULL,16385}]: two elements, the first null, so that bit 1
    alone is set in the null bitmap and the data area holds one oid. *)
Definition sample_array_null_first : ArrayType :=
  {| ARR_NDIM := 1; ARR_DIMS := [2];
     ARR_NULLBITMAP := Some [2]; ARR_DATA := [16385] |}.

(** The array [{16385,NULL}]. *)
Definition sample_array_null_last : ArrayType :=
  {| ARR_NDIM := 1; ARR_DIMS := [2];
     ARR_NULLBITMAP := Some [1]; ARR_DATA := [16385] |}.

(** The array [{16385,16386}], without nulls and so without a bitmap. *)
Definition sample_array : ArrayType :=
  {| ARR_NDIM := 1; ARR_DIMS := [2];
     ARR_NULLBITMAP := None; ARR_DATA := [16385; 16386] |}.

(** ** Further readings of the coordinator's code *)

(** The command [pull_active_list_from_seg] dispatches, and its replies. *)
Definition fetch_oid_sql : string :=
  "select * from diskquota.diskquota_fetch_table_stat(0, '{}'::oid[])".

Definition oid_replies (host : Host) : list PGresult :=
  CdbDispatchCommand host fetch_oid_sql.

(** The first column of every row of the replies. *)
Definition reported_oids (results : list PGresult) : list Oid :=
  (λ row : Z * list Z, nth 0 row.2 0) <$> rows_of results.

(** The union of the active oids of all the segments, and the array
    literal the size request is made with. *)
Definition active_oid_union (host : Host)
    : gmap Oid DiskQuotaActiveTableEntry :=
  foldl (λ m pgresult, foldl pull_active_list_tuple m (PQtuples pgresult))
    ∅ (oid_replies host).

Definition active_oid_array (host : Host) : string :=
  convert_map_to_string (active_oid_union host).

(** The text of an [oid[]] literal: the oids, printed as [%d] prints them,
    separated by commas, within braces. *)
Definition oid_array_text (oids : list Oid) : string :=
  "{" +:+ String.concat "," ((λ r, pretty (to_int32 r)) <$> oids) +:+ "}".

(** The key a row of [diskquota.table_size] is loaded under, if none of
    its three columns is null. *)
Definition row_key (tup : list (option Z)) : option TableEntryKey :=
  match nth 0 tup None, nth 1 tup None, nth 2 tup None with
  | Some r, Some _, Some seg => Some (key_of r seg)
  | _, _, _ => None
  end.

(** A host whose dispatcher and whose SPI answer as given. *)
Definition with_replies (replies : string → list PGresult) (host : Host)
    : Host :=
  {| prev_file_create_hook := prev_file_create_hook host;
     prev_file_extend_hook := prev_file_extend_hook host;
     prev_file_truncate_hook := prev_file_truncate_hook host;
     prev_file_unlink_hook := prev_file_unlink_hook host;
     prev_object_access_hook := prev_object_access_hook host;
     update_relation_cache := update_relation_cache host;
     remove_committed_relation_from_cache :=
       remove_committed_relation_from_cache host;
     get_relid_by_relfilenode := get_relid_by_relfilenode host;
     get_primary_table_oid := get_primary_table_oid host;
     SPI_connect_ok := SPI_connect_ok host;
     get_ext_major_version := get_ext_major_version host;
     pg_table_size := pg_table_size host;
     fault_injector := fault_injector host;
     CdbDispatchCommand := replies;
     SPI_execute := SPI_execute host;
     errno := errno host;
     get_database_name := get_database_name host |}.

(** Two segments of a version-1 installation answering the size request
    with two columns. *)
Definition sample_v1_host : Host :=
  with_replies
    (λ _, [ {| PQresultStatus := PGRES_TUPLES_OK; PQnfields := 2;
               PQtuples := [[16385; 8192]; [16387; 100]] |};
            {| PQresultStatus := PGRES_TUPLES_OK; PQnfields := 2;
               PQtuples := [[16385; 4096]] |} ])
    (sample_host_version 1).

(** A cluster where the second segment answers with a fatal error. *)
Definition sample_failing_host : Host :=
  with_replies
    (λ _, [ {| PQresultStatus := PGRES_TUPLES_OK; PQnfields := 3;
               PQtuples := [[16385; 8192; 0]] |};
            {| PQresultStatus := 7; PQnfields := 0; PQtuples := [] |} ])
    sample_host.

(** The result of a query on [diskquota.table_size] with a row whose size
    is null. *)
Definition sample_table_size : SPITupleTable :=
  {| SPI_result := SPI_OK_SELECT;
     tupdesc_atttypid := [OIDOID; INT8OID; INT2OID];
     SPI_vals := [[Some 16385; Some 12288; Some (-1)];
                  [Some 16386; None; Some 0];
                  [Some 16385; Some 8192; Some 0]] |}.

(** An oid map with two relations. *)
Definition sample_oid_map : gmap Oid DiskQuotaActiveTableEntry :=
  {[16385 := fresh_entry 16385; 16387 := fresh_entry 16387]}.

(** The mirror of segment 0. *)
Definition sample_mirror : Backend :=
  {| Gp_role := GP_ROLE_EXECUTE;
     GpIdentity_segindex := 0;
     IsRoleMirror := true;
     MyDatabaseId := 16400;
     diskquota_max_active_tables := 2 |}.

(** The reply of a segment whose table holds [entries]: by the major
    version, rows of two columns, rows of three, or an error. *)
Definition reply_of_version (v : Z) (entries : list DiskQuotaActiveTableEntry)
    (s : State) : Outcome (list (list Z)) :=
  if v =? 1
  then Returned ((λ e, [reloid e; to_int64 (tablesize e)]) <$> entries) s
  else if v =? 2
  then Returned
         ((λ e, [reloid e; to_int64 (tablesize e); to_int16 (segid e)])
          <$> entries) s
  else Raised ("[diskquota] unknown diskquota extension version: "
               +:+ pretty v) s.

(** The total of relation [R] once [size] more bytes are reported for it:
    a new entry for segment -1, or the entry that is there with [size]
    added in [Size] arithmetic. *)
Definition add_to_total (m : gmap TableEntryKey DiskQuotaActiveTableEntry)
    (R : Oid) (size : Z) : DiskQuotaActiveTableEntry :=
  match m !! key_of R (-1) with
  | None => {| reloid := R; segid := -1; tablesize := to_Size size |}
  | Some e => {| reloid := reloid e; segid := segid e;
                 tablesize := to_Size (tablesize e + to_Size size) |}
  end.

(** Two active files of the current database that do not resolve, 16390
    and 16393, beside a file of database 16401. *)
Definition sample_two_unresolved_state : State :=
  {| active_tables_map :=
       {[item_of (sample_rnode 16390); item_of (sample_rnode 16393);
         sample_foreign_item]};
     monitoring_dbid_cache := {[16400; 16401]};
     relation_cache := {[16385 := sample_cache_entry 16385]};
     lwlocks_held := [];
     server_log := [];
     xact_resources := [];
     SEGCOUNT := 0;
     unlocked_accesses := 0 |}.

(** * Properties *)

(** Closed decidable facts are settled by evaluating their decision. *)
Ltac by_evaluation :=
  match goal with
  | |- ?P => apply (bool_decide_unpack P); vm_compute; exact I
  end.

Lemma remove_first_head (l : LWLockId) (mode : LWLockMode)
    (held : list (LWLockId * LWLockMode)) :
  remove_first l ((l, mode) :: held) = held.
Proof. simpl. by rewrite decide_True. Qed.

Lemma mbind_run {A B} (f : A → M B) (m : M A) (s : State) :
  (m ≫= f) s = match m s with
               | Returned a s' => f a s'
               | Raised msg s' => Raised msg s'
               end.
Proof. reflexivity. Qed.

Lemma report_active_table_helper_spec (B : Backend)
    (rnode : RelFileNodeBackend) (s : State) :
  report_active_table_helper B rnode s = file_probe_spec B rnode s.
Proof.
  unfold report_active_table_helper, file_probe_spec.
  destruct (IS_QUERY_DISPATCHER B || IsRoleMirror B); [done|].
  rewrite mbind_run. unfold hash_search_monitoring_dbid_cache.
  destruct (decide (dbNode (node rnode) ∈ monitoring_dbid_cache s)) as [Hin|Hin].
  - rewrite (bool_decide_eq_true_2 _ Hin). simpl.
    rewrite (bool_decide_eq_false_2 (dbNode (node rnode) ∉ _)); [|by intros ?].
    destruct s as [atm mon rc held log xr sc ua]; simpl in *.
    unfold mbind, M_bind, LWLockAcquire, LWLockRelease, modify_state,
      hash_search_HASH_ENTER_NULL, ereport_WARNING, set_lwlocks_held,
      set_active_tables_map, set_server_log; simpl.
    destruct (decide (item_of rnode ∈ atm)) as [Hm|Hm]; simpl.
    + by rewrite (bool_decide_eq_true_2 _ Hm).
    + rewrite (bool_decide_eq_false_2 _ Hm).
      destruct (decide (size atm < diskquota_max_active_tables B)%nat)
        as [Hc|Hc]; simpl.
      * by rewrite (bool_decide_eq_true_2 _ Hc).
      * by rewrite (bool_decide_eq_false_2 _ Hc).
  - rewrite (bool_decide_eq_false_2 _ Hin). simpl.
    by rewrite (bool_decide_eq_true_2 (dbNode (node rnode) ∉ _)).
Qed.

(** ** Storage-event probes *)

(** The helper never raises. *)
Lemma report_active_table_helper_returns (B : Backend)
    (rnode : RelFileNodeBackend) (s : State) :
  ∃ s', report_active_table_helper B rnode s = Returned tt s'.
Proof.
  rewrite report_active_table_helper_spec. unfold file_probe_spec.
  repeat case_match; eauto.
Qed.

(** What eviction by relfilenode leaves in the cache, and that it leaves
    the active-table map alone. *)
Lemma unlink_probe_spec_evicts (relFileNode : RelFileNodeBackend)
    (s : State) :
  ∃ s', unlink_probe_spec relFileNode s = Returned tt s'
        ∧ active_tables_map s' = active_tables_map s
        ∧ ∀ k e, relation_cache s' !! k = Some e
                 ↔ relation_cache s !! k = Some e
                   ∧ relNode (node (rnode e)) ≠ relNode (node relFileNode).
Proof.
  eexists. split; [reflexivity|]. split; [done|].
  intros k e. simpl. by rewrite map_lookup_filter_Some.
Qed.

(** C1, as amended.  The three file probes on_create, on_extend and
    on_truncate behave identically: after the previously installed hook,
    each returns at once on the coordinator or a mirror, returns if the
    descriptor's db_id is not monitored, and otherwise inserts the
    (db_id, tablespace_id, relfilenode_id) triple into the shared
    active-table map, a no-op if the triple is present.  on_unlink reports
    nothing and checks nothing: after the previous hook it only evicts the
    relation-cache entries whose relfilenode is the descriptor's. *)
Theorem file_probes_report_and_unlink_evicts (host : Host) (B : Backend)
    (p : FileProbe) (rnode : RelFileNodeBackend) (s : State) :
  file_probe host B p rnode s
  = (call_prev_hook (prev_hook_of host p) rnode;;
     match p with
     | on_unlink => unlink_probe_spec rnode
     | _ => file_probe_spec B rnode
     end) s.
Proof.
  destruct p; simpl;
    unfold active_table_hook_smgrcreate, active_table_hook_smgrextend,
      active_table_hook_smgrtruncate, active_table_hook_smgrunlink;
    rewrite !mbind_run;
    (destruct (call_prev_hook _ rnode s);
     [first [apply report_active_table_helper_spec | reflexivity] | done]).
Qed.

(** C1 as stated fails for on_unlink: on a primary segment, for a monitored
    database and with room in the map, on_create inserts the descriptor's
    triple, while on_unlink returns with the triple still absent. *)
Lemma unlink_probe_does_not_report :
  IS_QUERY_DISPATCHER sample_segment = false
  ∧ IsRoleMirror sample_segment = false
  ∧ dbNode (node (sample_rnode 16385)) ∈ monitoring_dbid_cache sample_state
  ∧ item_of (sample_rnode 16385)
    ∈ active_tables_map
        (state_after (file_probe sample_host sample_segment on_create
                        (sample_rnode 16385) sample_state))
  ∧ returned (file_probe sample_host sample_segment on_unlink
                (sample_rnode 16385) sample_state) = true
  ∧ item_of (sample_rnode 16385)
    ∉ active_tables_map
        (state_after (file_probe sample_host sample_segment on_unlink
                        (sample_rnode 16385) sample_state)).
Proof.
  split; [reflexivity|]. split; [reflexivity|].
  split; [by_evaluation|].
  split; [by_evaluation|].
  split; [reflexivity|by_evaluation].
Qed.

(** C5.  A file probe never raises: once the previously installed hook has
    returned, the probe returns normally.  When the insertion fails because
    the shared map already holds [diskquota_max_active_tables] entries, the
    probe logs the warning and drops the event; the state it leaves is the
    one it found with the warning added, so the map is unchanged and the
    lock is released. *)
Theorem file_probe_never_raises (host : Host) (B : Backend) (p : FileProbe)
    (rnode : RelFileNodeBackend) (s0 s : State) :
  call_prev_hook (prev_hook_of host p) rnode s0 = Returned tt s →
  returned (file_probe host B p rnode s0) = true
  ∧ (p ≠ on_unlink →
     IS_QUERY_DISPATCHER B = false →
     IsRoleMirror B = false →
     dbNode (node rnode) ∈ monitoring_dbid_cache s →
     item_of rnode ∉ active_tables_map s →
     (diskquota_max_active_tables B ≤ size (active_tables_map s))%nat →
     file_probe host B p rnode s0
     = Returned tt (set_server_log (overflow_warning :: server_log s) s)).
Proof.
  intros Hprev. split.
  - destruct p; simpl;
      unfold active_table_hook_smgrcreate, active_table_hook_smgrextend,
        active_table_hook_smgrtruncate, active_table_hook_smgrunlink;
      rewrite mbind_run; simpl in Hprev; rewrite Hprev;
      try (destruct (report_active_table_helper_returns B rnode s) as [s' ->]);
      reflexivity.
  - intros Hp Hqd Hmirror Hmon Hitem Hfull.
    assert (report_active_table_helper B rnode s
            = Returned tt (set_server_log (overflow_warning :: server_log s) s))
      as Hhelper.
    { rewrite report_active_table_helper_spec. unfold file_probe_spec.
      rewrite Hqd, Hmirror. simpl.
      rewrite (bool_decide_eq_false_2 (_ ∉ _)); [|by intros ?].
      rewrite (bool_decide_eq_false_2 _ Hitem).
      rewrite bool_decide_eq_false_2; [done|lia]. }
    destruct p; try done; simpl;
      unfold active_table_hook_smgrcreate, active_table_hook_smgrextend,
        active_table_hook_smgrtruncate;
      rewrite mbind_run; simpl in Hprev; by rewrite Hprev.
Qed.

Lemma file_probe_never_raises_witness :
  returned (file_probe sample_host sample_segment on_extend
              (sample_rnode 16386) sample_full_state) = true
  ∧ file_probe sample_host sample_segment on_extend
      (sample_rnode 16386) sample_full_state
    = Returned tt
        (set_server_log (overflow_warning :: server_log sample_full_state)
           sample_full_state).
Proof.
  destruct (file_probe_never_raises sample_host sample_segment on_extend
              (sample_rnode 16386) sample_full_state sample_full_state
              eq_refl) as [Hret Hdrop].
  split; [exact Hret|].
  apply Hdrop; [done|reflexivity|reflexivity|by_evaluation|by_evaluation|].
  vm_compute. lia.
Defined.

(** C8.  After the previously installed hook, the post-object-create probe
    updates the relation cache for the object exactly when the access is
    OAT_POST_CREATE, the class is the relation class, subId is 0, the
    object id is at or above the reserved-oid boundary, the process is
    neither the coordinator nor a mirror, and the current database is
    monitored; in every other case it leaves the state as it found it. *)
Theorem object_access_hook_updates_cache_iff (host : Host) (B : Backend)
    (access : ObjectAccessType) (classId objectId : Oid) (subId : Z)
    (s0 s : State) :
  match prev_object_access_hook host with
  | Some prev => prev access classId objectId subId s0
  | None => Returned tt s0
  end = Returned tt s →
  object_access_hook_QuotaStmt host B access classId objectId subId s0
  = Returned tt
      (if post_create_probe_fires B access classId objectId subId s
       then set_relation_cache
              (update_relation_cache host objectId (relation_cache s)) s
       else s).
Proof.
  intros Hprev.
  unfold object_access_hook_QuotaStmt, post_create_probe_fires.
  rewrite mbind_run.
  replace (match prev_object_access_hook host with
           | Some prev => prev access classId objectId subId
           | None => mret ()
           end s0) with (Returned tt s)
    by (rewrite <- Hprev; by destruct (prev_object_access_hook host)).
  destruct (classId =? RelationRelationId); simpl;
    [|by rewrite andb_false_r].
  destruct (subId =? 0); simpl; [|by rewrite andb_false_r].
  rewrite !andb_true_r.
  replace (objectId <? FirstNormalObjectId)
    with (negb (FirstNormalObjectId <=? objectId))
    by (rewrite Z.leb_antisym; by destruct (objectId <? FirstNormalObjectId)).
  destruct (FirstNormalObjectId <=? objectId); simpl;
    [|by rewrite andb_false_r].
  rewrite andb_true_r.
  destruct (bool_decide (access = OAT_POST_CREATE)); simpl; [|done].
  unfold report_relation_cache_helper.
  rewrite <- negb_orb.
  destruct (IS_QUERY_DISPATCHER B || IsRoleMirror B); simpl; [done|].
  rewrite mbind_run. unfold hash_search_monitoring_dbid_cache.
  by destruct (bool_decide (MyDatabaseId B ∈ monitoring_dbid_cache s)).
Qed.

Lemma object_access_hook_updates_cache_iff_witness :
  object_access_hook_QuotaStmt sample_host sample_segment
    OAT_POST_CREATE RelationRelationId 16500 0 sample_state
  = Returned tt
      (set_relation_cache
         (<[16500 := sample_cache_entry 16500]> (relation_cache sample_state))
         sample_state)
  ∧ object_access_hook_QuotaStmt sample_host sample_segment
      OAT_POST_CREATE RelationRelationId 16500 1 sample_state
    = Returned tt sample_state.
Proof.
  split.
  - exact (object_access_hook_updates_cache_iff sample_host sample_segment
             OAT_POST_CREATE RelationRelationId 16500 0
             sample_state sample_state eq_refl).
  - exact (object_access_hook_updates_cache_iff sample_host sample_segment
             OAT_POST_CREATE RelationRelationId 16500 1
             sample_state sample_state eq_refl).
Defined.

(** ** The drain of FETCH_ACTIVE_OID *)

Section DrainFacts.
Context (host : Host) (B : Backend).

Lemma foldl_drain_step (l : list DiskQuotaActiveTableFileEntry)
    (loc sh : gset DiskQuotaActiveTableFileEntry) :
  (foldl (drain_step B) (loc, sh) l).1
  = loc ∪ filter (λ e, dbid e = MyDatabaseId B) (list_to_set l)
  ∧ (foldl (drain_step B) (loc, sh) l).2
    = sh ∖ filter (λ e, dbid e = MyDatabaseId B) (list_to_set l).
Proof.
  revert loc sh. induction l as [|x l IH]; intros loc sh; simpl.
  - split; set_solver.
  - unfold drain_step at 2 4.
    destruct (Z.eqb_spec (dbid x) (MyDatabaseId B)) as [Heq|Hne]; simpl.
    + destruct (IH ({[x]} ∪ loc) (sh ∖ {[x]})) as [-> ->].
      split; set_solver.
    + destruct (IH loc sh) as [-> ->]. split; set_solver.
Qed.

(** The first critical section moves exactly the current database's
    entries out of the shared table, and gives the lock back. *)
Lemma drain_active_tables_map_run (s : State) :
  drain_active_tables_map B s
  = Returned (drained B s) (set_active_tables_map (kept B s) s).
Proof.
  unfold drain_active_tables_map, drained, kept.
  destruct (foldl_drain_step (elements (active_tables_map s)) ∅
              (active_tables_map s)) as [H1 H2].
  destruct s as [atm mon rc held log xr sc ua]; simpl in *.
  unfold mbind, M_bind, LWLockAcquire, LWLockRelease, modify_state,
    get_state, mret, M_ret, set_lwlocks_held, set_active_tables_map; simpl.
  rewrite H1, H2, list_to_set_elements_L.
  f_equal; [set_solver|]. f_equal. apply set_eq. intros x.
  rewrite elem_of_difference, !elem_of_filter. tauto.
Qed.

Lemma foldl_resolve_step (cache : gmap Oid DiskQuotaRelationCacheEntry)
    (l : list DiskQuotaActiveTableFileEntry)
    (stats : gmap Oid DiskQuotaActiveTableEntry)
    (loc : gset DiskQuotaActiveTableFileEntry) :
  dom (foldl (resolve_step host cache) (stats, loc) l).1
  = dom stats
    ∪ set_map (primary_of host cache)
        (filter (λ e, relid_of host cache e ≠ InvalidOid)
           (list_to_set l : gset DiskQuotaActiveTableFileEntry))
  ∧ (∀ k e, (foldl (resolve_step host cache) (stats, loc) l).1 !! k = Some e →
            stats !! k = Some e ∨ e = fresh_entry k)
  ∧ (foldl (resolve_step host cache) (stats, loc) l).2
    = loc ∖ filter (λ e, relid_of host cache e ≠ InvalidOid) (list_to_set l).
Proof.
  revert stats loc. induction l as [|x l IH]; intros stats loc; simpl.
  - split; [set_solver|]. split; [by left|set_solver].
  - unfold resolve_step at 2 4 6. fold (relid_of host cache x).
    fold (primary_of host cache x).
    destruct (Z.eqb_spec (relid_of host cache x) InvalidOid) as [Heq|Hne];
      simpl.
    + destruct (IH stats loc) as (-> & Hval & ->).
      split; [set_solver|]. split; [done|set_solver].
    + destruct (stats !! primary_of host cache x) as [e0|] eqn:Hlk.
      * destruct (IH stats (loc ∖ {[x]})) as (-> & Hval & ->).
        assert (primary_of host cache x ∈ dom stats)
          by (apply elem_of_dom; eauto).
        split; [set_solver|]. split; [done|set_solver].
      * destruct (IH (<[primary_of host cache x :=
                         {| reloid := primary_of host cache x; segid := -1;
                            tablesize := 0 |}]> stats) (loc ∖ {[x]}))
          as (-> & Hval & ->).
        split; [rewrite dom_insert_L; set_solver|].
        split; [|set_solver].
        intros k e Hk. destruct (Hval k e Hk) as [Hins|?]; [|by right].
        destruct (decide (primary_of host cache x = k)) as [<-|Hnk].
        -- rewrite lookup_insert_eq in Hins. right. by inversion Hins.
        -- rewrite lookup_insert_ne in Hins by done. by left.
Qed.

Lemma resolve_active_tables_run
    (local : gset DiskQuotaActiveTableFileEntry) (s : State) :
  resolve_active_tables host local s
  = Returned
      (foldl (resolve_step host (swept host s)) (∅, local) (elements local))
      (set_relation_cache (swept host s) s).
Proof. reflexivity. Qed.

Lemma touch_active_tables_map_locked (s : State) :
  (active_table_lock, LW_EXCLUSIVE) ∈ lwlocks_held s →
  touch_active_tables_map s = s.
Proof. intros Hheld. unfold touch_active_tables_map. by rewrite decide_True. Qed.

Lemma enter_all_run (l : list DiskQuotaActiveTableFileEntry) (s : State) :
  (active_table_lock, LW_EXCLUSIVE) ∈ lwlocks_held s →
  for_each (λ e, _ ← hash_search_HASH_ENTER_NULL B e; mret tt) l s
  = Returned tt
      (set_active_tables_map (enter_all B l (active_tables_map s)) s).
Proof.
  revert s. induction l as [|x l IH]; intros s Hheld; simpl.
  - by destruct s.
  - rewrite !mbind_run. unfold hash_search_HASH_ENTER_NULL at 1. cbv zeta.
    rewrite touch_active_tables_map_locked by done.
    destruct (decide (x ∈ active_tables_map s)); [by apply IH|].
    destruct (decide (size (active_tables_map s)
                      < diskquota_max_active_tables B)%nat); [|by apply IH].
    simpl. rewrite IH by done. by destruct s.
Qed.

Lemma enter_all_mono (l : list DiskQuotaActiveTableFileEntry)
    (m : gset DiskQuotaActiveTableFileEntry) :
  m ⊆ enter_all B l m.
Proof.
  revert m. induction l as [|x l IH]; intros m; simpl; [done|].
  repeat case_decide; (etrans; [|apply IH]); set_solver.
Qed.

(** No room: nothing new gets in. *)
Lemma enter_all_full (l : list DiskQuotaActiveTableFileEntry)
    (m : gset DiskQuotaActiveTableFileEntry) :
  (diskquota_max_active_tables B ≤ size m)%nat → enter_all B l m = m.
Proof.
  intros Hfull. induction l as [|x l IH]; simpl; [done|].
  repeat case_decide; [done|lia|done].
Qed.

(** Room for all: everything gets in. *)
Lemma enter_all_room (l : list DiskQuotaActiveTableFileEntry)
    (m : gset DiskQuotaActiveTableFileEntry) :
  (size (m ∪ list_to_set l) ≤ diskquota_max_active_tables B)%nat →
  enter_all B l m = m ∪ list_to_set l.
Proof.
  revert m. induction l as [|x l IH]; intros m Hroom; simpl in *.
  - set_solver.
  - destruct (decide (x ∈ m)) as [Hin|Hout].
    + rewrite IH.
      * set_solver.
      * replace (m ∪ list_to_set l) with (m ∪ ({[x]} ∪ list_to_set l));
          [done|set_solver].
    + assert (size ({[x]} ∪ m) ≤ diskquota_max_active_tables B)%nat as Hone.
      { etrans; [|exact Hroom]. apply subseteq_size. set_solver. }
      rewrite size_union, size_singleton in Hone by set_solver.
      rewrite decide_True by lia.
      rewrite IH.
      * set_solver.
      * replace ({[x]} ∪ m ∪ list_to_set l)
          with (m ∪ ({[x]} ∪ list_to_set l)); [done|set_solver].
Qed.

Lemma put_back_active_tables_run
    (local : gset DiskQuotaActiveTableFileEntry) (s : State) :
  put_back_active_tables B local s
  = Returned tt
      (set_active_tables_map
         (enter_all B (elements local) (active_tables_map s)) s).
Proof.
  unfold put_back_active_tables.
  destruct (0 <? size local)%nat eqn:Hsz.
  - rewrite mbind_run. unfold LWLockAcquire at 1, modify_state at 1.
    rewrite mbind_run, enter_all_run by (simpl; by left).
    destruct s; simpl.
    unfold LWLockRelease, modify_state, set_lwlocks_held,
      set_active_tables_map; simpl.
    reflexivity.
  - apply Nat.ltb_ge in Hsz.
    assert (local = ∅) as -> by (apply leibniz_equiv, size_empty_iff; lia).
    rewrite elements_empty. by destruct s.
Qed.

Lemma file_probe_spec_grows (ev : RelFileNodeBackend) (s : State) :
  ∃ s', file_probe_spec B ev s = Returned tt s'
        ∧ active_tables_map s ⊆ active_tables_map s'.
Proof.
  unfold file_probe_spec.
  repeat case_match; eexists; (split; [reflexivity|]); simpl; set_solver.
Qed.

(** The probes of the other backends return, and only add to the table
    and to the log. *)
Lemma other_backends_run (events : list RelFileNodeBackend) (s : State) :
  other_backends B events s
  = Returned tt (state_after (other_backends B events s))
  ∧ active_tables_map s
    ⊆ active_tables_map (state_after (other_backends B events s)).
Proof.
  unfold other_backends. revert s.
  induction events as [|ev events IH]; intros s; simpl; [done|].
  rewrite !mbind_run, report_active_table_helper_spec.
  destruct (file_probe_spec_grows ev s) as (s' & -> & Hsub).
  split; [apply IH|]. etrans; [exact Hsub|apply IH].
Qed.

Lemma unresolved_after_resolve (s : State) :
  (foldl (resolve_step host (swept host s)) (∅, drained B s)
     (elements (drained B s))).2
  = unresolved host B s.
Proof.
  destruct (foldl_resolve_step (swept host s) (elements (drained B s)) ∅
              (drained B s)) as (_ & _ & ->).
  rewrite list_to_set_elements_L. unfold unresolved.
  apply set_eq. intros x.
  rewrite elem_of_difference, !elem_of_filter.
  destruct (decide (relid_of host (swept host s) x = InvalidOid)); tauto.
Qed.

Lemma resolved_after_resolve (s : State) :
  dom (foldl (resolve_step host (swept host s)) (∅, drained B s)
         (elements (drained B s))).1
  = resolved_ids host B s
  ∧ ∀ k e,
      (foldl (resolve_step host (swept host s)) (∅, drained B s)
         (elements (drained B s))).1 !! k = Some e →
      e = fresh_entry k.
Proof.
  destruct (foldl_resolve_step (swept host s) (elements (drained B s)) ∅
              (drained B s)) as (Hdom & Hval & _).
  split.
  - rewrite Hdom, list_to_set_elements_L, dom_empty_L. unfold resolved_ids.
    set_solver.
  - intros k e Hk. destruct (Hval k e Hk) as [Hempty|?]; [|done].
    by rewrite lookup_empty in Hempty.
Qed.

(** The whole of [get_active_tables_oid]: it returns the map built by the
    resolution, and leaves the state of the put-back's start with the
    unresolved entries entered where they fit. *)
Lemma get_active_tables_oid_run (concurrent : list RelFileNodeBackend)
    (s : State) :
  get_active_tables_oid host B concurrent s
  = Returned
      (foldl (resolve_step host (swept host s)) (∅, drained B s)
         (elements (drained B s))).1
      (set_active_tables_map
         (enter_all B (elements (unresolved host B s))
            (active_tables_map (at_put_back host B concurrent s)))
         (at_put_back host B concurrent s)).
Proof.
  unfold get_active_tables_oid.
  rewrite mbind_run, drain_active_tables_map_run.
  rewrite mbind_run, resolve_active_tables_run.
  assert (swept host (set_active_tables_map (kept B s) s) = swept host s)
    as -> by done.
  rewrite mbind_run.
  destruct (other_backends_run concurrent
              (set_relation_cache (swept host s)
                 (set_active_tables_map (kept B s) s))) as [-> _].
  fold (at_put_back host B concurrent s).
  rewrite mbind_run, put_back_active_tables_run.
  by rewrite unresolved_after_resolve.
Qed.

End DrainFacts.

Lemma set_active_tables_map_same (s : State) :
  set_active_tables_map (active_tables_map s) s = s.
Proof. by destruct s. Qed.

Lemma enter_all_upper (B : Backend)
    (l : list DiskQuotaActiveTableFileEntry)
    (m : gset DiskQuotaActiveTableFileEntry) :
  enter_all B l m ⊆ m ∪ list_to_set l.
Proof.
  revert m. induction l as [|x l IH]; intros m; simpl; [set_solver|].
  repeat case_decide; (etrans; [apply IH|]); set_solver.
Qed.

Lemma enter_all_app (B : Backend)
    (l1 l2 : list DiskQuotaActiveTableFileEntry)
    (m : gset DiskQuotaActiveTableFileEntry) :
  enter_all B (l1 ++ l2) m = enter_all B l2 (enter_all B l1 m).
Proof. apply foldl_app. Qed.

(** The fate of one entry of a run of insertions: it is in the table at
    the end exactly when it was there already, or the table had room when
    its turn came. *)
Lemma enter_all_entry (B : Backend)
    (l1 l2 : list DiskQuotaActiveTableFileEntry)
    (e : DiskQuotaActiveTableFileEntry)
    (m : gset DiskQuotaActiveTableFileEntry) :
  e ∉ l1 →
  (e ∈ enter_all B (l1 ++ e :: l2) m
   ↔ e ∈ m ∨ (size (enter_all B l1 m) < diskquota_max_active_tables B)%nat).
Proof.
  intros Hnot. rewrite enter_all_app.
  assert (e ∈ enter_all B l1 m ↔ e ∈ m) as Hpre.
  { split; [|apply enter_all_mono].
    intros Hin%enter_all_upper. apply elem_of_union in Hin as [?|Hin]; [done|].
    by apply elem_of_list_to_set in Hin. }
  rewrite <- Hpre. generalize (enter_all B l1 m). intros m'.
  change (enter_all B (e :: l2) m')
    with (enter_all B l2
            (if decide (e ∈ m') then m'
             else if decide (size m' < diskquota_max_active_tables B)%nat
                  then {[e]} ∪ m' else m')).
  destruct (decide (e ∈ m')) as [Hin|Hout].
  { split; [by left|]. intros _. by apply enter_all_mono. }
  destruct (decide (size m' < diskquota_max_active_tables B)%nat)
    as [Hroom|Hfull].
  { split; [by right|]. intros _. apply enter_all_mono. set_solver. }
  rewrite enter_all_full by lia. tauto.
Qed.

(** A run of insertions that leaves room at the end left nothing out. *)
Lemma enter_all_size (B : Backend)
    (l : list DiskQuotaActiveTableFileEntry)
    (m : gset DiskQuotaActiveTableFileEntry)
    (e : DiskQuotaActiveTableFileEntry) :
  e ∈ l → e ∉ enter_all B l m →
  (diskquota_max_active_tables B ≤ size (enter_all B l m))%nat.
Proof.
  revert m. induction l as [|x l IH]; intros m Hin Hout; [by inversion Hin|].
  simpl in *.
  destruct (decide (x ∈ m)) as [Hxm|Hxm].
  { apply elem_of_cons in Hin as [->|Hin]; [|by apply IH].
    exfalso. apply Hout. by apply enter_all_mono. }
  destruct (decide (size m < diskquota_max_active_tables B)%nat)
    as [Hroom|Hfull].
  { apply elem_of_cons in Hin as [->|Hin]; [|by apply IH].
    exfalso. apply Hout. apply enter_all_mono. set_solver. }
  rewrite enter_all_full by lia. lia.
Qed.

(** A file probe touches the table and the log, and nothing else: the locks
    it takes it gives back, and it reaches the table under the lock. *)
Lemma file_probe_spec_keeps (B : Backend) (ev : RelFileNodeBackend)
    (s : State) :
  ∃ s', file_probe_spec B ev s = Returned tt s'
        ∧ monitoring_dbid_cache s' = monitoring_dbid_cache s
        ∧ relation_cache s' = relation_cache s
        ∧ lwlocks_held s' = lwlocks_held s
        ∧ xact_resources s' = xact_resources s
        ∧ SEGCOUNT s' = SEGCOUNT s
        ∧ unlocked_accesses s' = unlocked_accesses s
        ∧ active_tables_map s' ⊆ active_tables_map s ∪ {[item_of ev]}.
Proof.
  unfold file_probe_spec.
  repeat case_match; (eexists; split; [reflexivity|]); simpl; split_and!;
    try done; set_solver.
Qed.

Lemma other_backends_keeps (B : Backend) (events : list RelFileNodeBackend)
    (s : State) :
  monitoring_dbid_cache (state_after (other_backends B events s))
  = monitoring_dbid_cache s
  ∧ relation_cache (state_after (other_backends B events s))
    = relation_cache s
  ∧ lwlocks_held (state_after (other_backends B events s)) = lwlocks_held s
  ∧ xact_resources (state_after (other_backends B events s))
    = xact_resources s
  ∧ SEGCOUNT (state_after (other_backends B events s)) = SEGCOUNT s
  ∧ unlocked_accesses (state_after (other_backends B events s))
    = unlocked_accesses s.
Proof.
  unfold other_backends. revert s.
  induction events as [|ev events IH]; intros s; simpl; [done|].
  rewrite mbind_run, report_active_table_helper_spec.
  destruct (file_probe_spec_keeps B ev s)
    as (s' & -> & Hm & Hr & Hl & Hx & Hc & Hu & _).
  destruct (IH s') as (Hm' & Hr' & Hl' & Hx' & Hc' & Hu').
  by rewrite Hm', Hr', Hl', Hx', Hc', Hu'.
Qed.

(** C4, as amended.  In FETCH_ACTIVE_OID mode the segment drains from the
    shared map, under the writer lock, exactly the entries of the current
    database: the draining critical section returns them, leaves the others
    in the map, gives the lock back, and has reached the map only while
    holding [active_table_lock] in exclusive mode (the count of unlocked
    accesses is the one it started with).  Each drained entry is resolved to
    a relation id and mapped to its primary, and the returned set holds
    exactly the primary relation ids of the resolved entries, each with
    segment -1 and size 0.  The call returns with the locks it was entered
    with, having reached the shared map under the writer lock only; the
    state it leaves differs from the one the put-back started in by the
    shared map alone, which holds what it held then and, beyond that, only
    unresolved entries.  The unresolved entries are put back one by one, in
    the order of the scan: an entry is in the shared map afterwards exactly
    when another backend has reported it again meanwhile, or the map held
    fewer than [diskquota_max_active_tables] entries when its turn came; so
    an entry that is missing afterwards found the map full, and the map is
    full at the end. *)
Theorem drain_resolves_and_puts_back (host : Host) (B : Backend)
    (concurrent : list RelFileNodeBackend) (s : State) :
  drain_active_tables_map B s
  = Returned (drained B s) (set_active_tables_map (kept B s) s)
  ∧ ∃ stats s',
      get_active_tables_oid host B concurrent s = Returned stats s'
      ∧ dom stats = resolved_ids host B s
      ∧ (∀ k e, stats !! k = Some e → e = fresh_entry k)
      ∧ lwlocks_held s' = lwlocks_held s
      ∧ unlocked_accesses s' = unlocked_accesses s
      ∧ s' = set_active_tables_map (active_tables_map s')
               (at_put_back host B concurrent s)
      ∧ active_tables_map (at_put_back host B concurrent s)
        ⊆ active_tables_map s'
      ∧ active_tables_map s'
        ⊆ active_tables_map (at_put_back host B concurrent s)
          ∪ unresolved host B s
      ∧ (∀ l1 e l2,
           elements (unresolved host B s) = l1 ++ e :: l2 →
           (e ∈ active_tables_map s'
            ↔ e ∈ active_tables_map (at_put_back host B concurrent s)
              ∨ (size (enter_all B l1
                         (active_tables_map
                            (at_put_back host B concurrent s)))
                 < diskquota_max_active_tables B)%nat))
      ∧ (∀ e, e ∈ unresolved host B s → e ∉ active_tables_map s' →
              (diskquota_max_active_tables B
               ≤ size (active_tables_map s'))%nat).
Proof.
  split; [apply drain_active_tables_map_run|].
  eexists _, _. split; [apply get_active_tables_oid_run|].
  destruct (resolved_after_resolve host B s) as [Hdom Hval].
  split; [exact Hdom|]. split; [exact Hval|].
  destruct (other_backends_keeps B concurrent
              (set_relation_cache (swept host s)
                 (set_active_tables_map (kept B s) s)))
    as (_ & _ & Hl & _ & _ & Hu).
  fold (at_put_back host B concurrent s) in Hl, Hu.
  split; [exact Hl|]. split; [exact Hu|].
  split; [by destruct (at_put_back host B concurrent s)|].
  cbn [active_tables_map set_active_tables_map].
  split; [apply enter_all_mono|].
  split.
  { etrans; [apply enter_all_upper|]. by rewrite list_to_set_elements_L. }
  split.
  - intros l1 e l2 Hsplit. rewrite Hsplit. apply enter_all_entry.
    pose proof (NoDup_elements (unresolved host B s)) as Hnd.
    rewrite Hsplit in Hnd. apply NoDup_app in Hnd as (_ & Hnd & _).
    intros Hin. apply (Hnd e Hin). by left.
  - intros e Hin Hout. apply (enter_all_size B _ _ e); [|done].
    by apply elem_of_elements.
Qed.

Lemma drain_resolves_and_puts_back_witness :
  elements (unresolved sample_host sample_segment3
              sample_two_unresolved_state)
  = [item_of (sample_rnode 16393); item_of (sample_rnode 16390)]
  ∧ returned (get_active_tables_oid sample_host sample_segment3
                [sample_rnode 16391] sample_two_unresolved_state) = true
  ∧ item_of (sample_rnode 16393)
    ∈ active_tables_map
        (state_after (get_active_tables_oid sample_host sample_segment3
                        [sample_rnode 16391] sample_two_unresolved_state))
  ∧ (item_of (sample_rnode 16390)
     ∉ active_tables_map
         (state_after (get_active_tables_oid sample_host sample_segment3
                         [sample_rnode 16391] sample_two_unresolved_state)))
  ∧ unlocked_accesses
      (state_after (get_active_tables_oid sample_host sample_segment3
                      [sample_rnode 16391] sample_two_unresolved_state))
    = 0%nat.
Proof.
  assert (elements (unresolved sample_host sample_segment3
                      sample_two_unresolved_state)
          = [item_of (sample_rnode 16393); item_of (sample_rnode 16390)])
    as Horder by (vm_compute; reflexivity).
  destruct (drain_resolves_and_puts_back sample_host sample_segment3
              [sample_rnode 16391] sample_two_unresolved_state)
    as (_ & stats & s' & Hrun & _ & _ & _ & Hu & _ & _ & _ & Hturn & _).
  rewrite Hrun. cbn [returned state_after].
  split; [exact Horder|]. split; [reflexivity|].
  split; [|split; [|exact Hu]].
  - apply (Hturn [] _ [item_of (sample_rnode 16390)] Horder).
    right. vm_compute. lia.
  - rewrite (Hturn [item_of (sample_rnode 16393)] _ [] Horder).
    by_evaluation.
Defined.

(** C4 as stated fails when the shared map fills up between the drain and
    the put-back: file 16390 of the current database is active and does not
    resolve, two other files are reported meanwhile and take the free
    slots, and the drain returns with 16390 gone from the shared map. *)
Lemma unresolved_entry_lost_when_full :
  item_of (sample_rnode 16390) ∈ active_tables_map sample_active_state
  ∧ dbid (item_of (sample_rnode 16390)) = MyDatabaseId sample_segment3
  ∧ relid_of sample_host (swept sample_host sample_active_state)
      (item_of (sample_rnode 16390)) = InvalidOid
  ∧ returned (get_active_tables_oid sample_host sample_segment3
                sample_concurrent sample_active_state) = true
  ∧ item_of (sample_rnode 16390)
    ∉ active_tables_map
        (state_after (get_active_tables_oid sample_host sample_segment3
                        sample_concurrent sample_active_state)).
Proof.
  split; [by_evaluation|]. split; [reflexivity|]. split; [by_evaluation|].
  split; [by_evaluation|by_evaluation].
Qed.

(** C9.  The drain leaves the shared entries of the other databases alone:
    an entry whose db_id is not the current database's, present before, is
    still present after the draining critical section and after the whole
    of the call, which returns normally.  An entry is its key, so its
    presence is its presence unmodified. *)
Theorem drain_keeps_other_databases (host : Host) (B : Backend)
    (concurrent : list RelFileNodeBackend) (s : State)
    (e : DiskQuotaActiveTableFileEntry) :
  e ∈ active_tables_map s →
  dbid e ≠ MyDatabaseId B →
  e ∈ active_tables_map (state_after (drain_active_tables_map B s))
  ∧ returned (get_active_tables_oid host B concurrent s) = true
  ∧ e ∈ active_tables_map
        (state_after (get_active_tables_oid host B concurrent s)).
Proof.
  intros Hin Hdb.
  assert (e ∈ kept B s) as Hkept by (by apply elem_of_filter).
  rewrite drain_active_tables_map_run, get_active_tables_oid_run. simpl.
  split; [done|]. split; [done|].
  apply enter_all_mono. unfold at_put_back.
  by apply other_backends_run.
Qed.

Lemma drain_keeps_other_databases_witness :
  sample_foreign_item
  ∈ active_tables_map
      (state_after (get_active_tables_oid sample_host sample_segment3
                      sample_concurrent sample_active_state)).
Proof.
  apply (drain_keeps_other_databases sample_host sample_segment3
           sample_concurrent sample_active_state sample_foreign_item).
  - by_evaluation.
  - by_evaluation.
Defined.

(** C10.  The put-back enters the unresolved entries with the non-raising
    [HASH_ENTER_NULL]: when the shared map is at capacity as the put-back
    starts, the call still returns normally with the resolved set, and the
    state it leaves is the one the put-back started from; nothing was
    entered and no warning was logged, so an unresolved entry that was not
    in the map is discarded in silence. *)
Theorem put_back_at_capacity_discards (host : Host) (B : Backend)
    (concurrent : list RelFileNodeBackend) (s : State) :
  (diskquota_max_active_tables B
   ≤ size (active_tables_map (at_put_back host B concurrent s)))%nat →
  ∃ stats,
    get_active_tables_oid host B concurrent s
    = Returned stats (at_put_back host B concurrent s)
    ∧ dom stats = resolved_ids host B s
    ∧ ∀ e, e ∈ unresolved host B s →
           e ∉ active_tables_map (at_put_back host B concurrent s) →
           e ∉ active_tables_map
                 (state_after (get_active_tables_oid host B concurrent s)).
Proof.
  intros Hfull.
  pose proof (get_active_tables_oid_run host B concurrent s) as Hrun.
  rewrite enter_all_full, set_active_tables_map_same in Hrun by done.
  eexists. split; [exact Hrun|]. split; [apply resolved_after_resolve|].
  intros e _ Hout. by rewrite Hrun.
Qed.

Lemma put_back_at_capacity_discards_witness :
  ∃ stats,
    get_active_tables_oid sample_host sample_segment3 sample_concurrent
      sample_active_state
    = Returned stats
        (at_put_back sample_host sample_segment3 sample_concurrent
           sample_active_state)
    ∧ server_log (at_put_back sample_host sample_segment3 sample_concurrent
                    sample_active_state) = []
    ∧ item_of (sample_rnode 16390)
      ∉ active_tables_map
          (state_after (get_active_tables_oid sample_host sample_segment3
                          sample_concurrent sample_active_state)).
Proof.
  destruct (put_back_at_capacity_discards sample_host sample_segment3
              sample_concurrent sample_active_state)
    as (stats & Hrun & _ & Hlost).
  { vm_compute. lia. }
  exists stats. split; [exact Hrun|]. split; [reflexivity|].
  apply Hlost; by_evaluation.
Defined.

(** ** The coordinator's aggregation *)

Section AggregationFacts.
Context (host : Host).

Lemma for_each_result_ok {A} (f : A → PGresult → A) (acc : A)
    (results : list PGresult) (s : State) :
  Forall (λ r, PQresultStatus r = PGRES_TUPLES_OK) results →
  for_each_result f acc results s = Returned (foldl f acc results) s.
Proof.
  intros Hok. revert acc.
  induction Hok as [|r rs Hr _ IH]; intros acc; simpl; [done|].
  rewrite Hr. simpl. apply IH.
Qed.

Lemma foldl_rows_of (results : list PGresult)
    (m : gmap TableEntryKey DiskQuotaActiveTableEntry) :
  foldl (λ m pgresult,
           foldl (pull_active_table_size_tuple (PQnfields pgresult)) m
             (PQtuples pgresult)) m results
  = foldl (λ m (row : Z * list Z), pull_active_table_size_tuple row.1 m row.2)
      m (rows_of results).
Proof.
  revert m. induction results as [|r rs IH]; intros m; [done|].
  unfold rows_of in *. simpl. rewrite foldl_app, <- IH. f_equal.
  generalize (PQtuples r). intros tups. revert m.
  induction tups as [|t tups IHt]; intros m; simpl; [done|apply IHt].
Qed.

Lemma to_Size_add (a b : Z) : to_Size (to_Size a + to_Size b) = to_Size (a + b).
Proof. unfold to_Size. by rewrite <- Z.add_mod. Qed.

Lemma sum_sizes_snoc (l : list Z) (v : Z) :
  sum_sizes (l ++ [v]) = sum_sizes l + v.
Proof. unfold sum_sizes. induction l; simpl; lia. Qed.

Lemma reported_sizes_snoc (R : Oid) (rows : list (Z * list Z))
    (row : Z * list Z) :
  reported_sizes R (rows ++ [row])
  = reported_sizes R rows
    ++ (if decide (nth 0 row.2 0 = R) then [nth 1 row.2 0] else []).
Proof.
  unfold reported_sizes. rewrite filter_app, fmap_app. f_equal.
  rewrite filter_cons, filter_nil. by case_decide.
Qed.

Lemma reports_snoc (rows : list (Z * list Z)) (row : Z * list Z)
    (R : Oid) (seg size : Z) :
  reports (rows ++ [row]) R seg size
  ↔ reports rows R seg size
    ∨ (row.1 = 3 ∧ nth 0 row.2 0 = R ∧ nth 2 row.2 0 = seg
       ∧ nth 1 row.2 0 = size).
Proof.
  unfold reports. split.
  - intros (tup & Hin & ? & ? & ?).
    apply elem_of_app in Hin as [Hin|Hin]; [left; eauto|].
    apply list_elem_of_singleton in Hin. subst row. by right.
  - intros [(tup & Hin & ?)|(H3 & ?)].
    + exists tup. split; [|done]. apply elem_of_app. by left.
    + exists row.2. split; [|done]. apply elem_of_app. right.
      apply list_elem_of_singleton. destruct row; simpl in *. by subst.
Qed.

Lemma aggregated_empty : aggregated ∅ [].
Proof.
  split; [|split].
  - intros R. by rewrite lookup_empty.
  - intros R seg e _ Hk. by rewrite lookup_empty in Hk.
  - intros R seg size _ (tup & Hin & _). by apply elem_of_nil in Hin.
Qed.

(** One row more: the invariant of the inner loop's body. *)
Lemma aggregated_step (m : gmap TableEntryKey DiskQuotaActiveTableEntry)
    (rows : list (Z * list Z)) (row : Z * list Z) :
  aggregated m rows →
  (row.1 = 3 → nth 2 row.2 0 ≠ -1) →
  aggregated (pull_active_table_size_tuple row.1 m row.2) (rows ++ [row]).
Proof.
  destruct row as [nf tup]. simpl. intros (Htot & Hseg & Hrep) Hvalid.
  unfold pull_active_table_size_tuple. cbv zeta.
  set (R0 := nth 0 tup 0). set (v := nth 1 tup 0). set (seg0 := nth 2 tup 0).
  fold (key_of R0 seg0). fold (key_of R0 (-1)).
  set (m1 := if nf =? 3
             then <[key_of R0 seg0 := {| reloid := R0; segid := seg0;
                                         tablesize := to_Size v |}]> m
             else m).
  assert (∀ R, m1 !! key_of R (-1) = m !! key_of R (-1)) as Hm1tot.
  { intros R. unfold m1. destruct (Z.eqb_spec nf 3) as [H3|]; [|done].
    apply lookup_insert_ne. unfold key_of. intros [= _ Hs].
    by apply Hvalid. }
  assert (∀ R seg, m1 !! key_of R seg
                   = if decide (nf = 3 ∧ R = R0 ∧ seg = seg0)
                     then Some {| reloid := R0; segid := seg0;
                                  tablesize := to_Size v |}
                     else m !! key_of R seg) as Hm1seg.
  { intros R seg. unfold m1. destruct (Z.eqb_spec nf 3) as [H3|H3].
    - destruct (decide (nf = 3 ∧ R = R0 ∧ seg = seg0)) as [Hd|Hd].
      + destruct Hd as (_ & -> & ->). apply lookup_insert_eq.
      + apply lookup_insert_ne. unfold key_of. intros [= -> ->].
        by apply Hd.
    - rewrite decide_False; [done|]. by intros (? & _). }
  set (m2 := match m1 !! key_of R0 (-1) with
             | Some entry => _
             | None => _
             end).
  assert (∀ k, k ≠ key_of R0 (-1) → m2 !! k = m1 !! k) as Hm2.
  { intros k Hk. unfold m2.
    destruct (m1 !! key_of R0 (-1)); by rewrite lookup_insert_ne. }
  assert (m2 !! key_of R0 (-1)
          = Some {| reloid := R0; segid := -1;
                    tablesize :=
                      to_Size (sum_sizes (reported_sizes R0 rows) + v) |})
    as Hm2tot.
  { unfold m2. rewrite Hm1tot, Htot.
    destruct (decide (reported_sizes R0 rows = [])) as [Hnil|Hnil].
    - rewrite lookup_insert_eq, Hnil. done.
    - rewrite lookup_insert_eq. simpl. f_equal. f_equal.
      apply to_Size_add. }
  split; [|split].
  - intros R. rewrite reported_sizes_snoc. simpl. fold R0 v.
    destruct (decide (R0 = R)) as [<-|Hne].
    + rewrite Hm2tot, decide_False, sum_sizes_snoc; [done|].
      by destruct (reported_sizes R0 rows).
    + rewrite app_nil_r, Hm2, Hm1tot; [apply Htot|].
      unfold key_of. by intros [= ->].
  - intros R seg e Hs Hk.
    rewrite Hm2, Hm1seg in Hk by (unfold key_of; by intros [= _ ->]).
    destruct (decide (nf = 3 ∧ R = R0 ∧ seg = seg0)) as [Hd|Hd].
    + destruct Hd as (H3 & -> & ->). inversion Hk; subst e; simpl.
      split; [done|]. split; [done|]. exists v. split; [|done].
      apply reports_snoc. right. done.
    + destruct (Hseg R seg e Hs Hk) as (? & ? & size & ? & ?).
      split; [done|]. split; [done|]. exists size. split; [|done].
      apply reports_snoc. by left.
  - intros R seg size Hs Hr.
    rewrite Hm2, Hm1seg by (unfold key_of; by intros [= _ ->]).
    destruct (decide (nf = 3 ∧ R = R0 ∧ seg = seg0)) as [Hd|Hd]; [done|].
    apply reports_snoc in Hr as [Hr|(H3 & HR & Hsg & _)].
    + by apply (Hrep R seg size).
    + simpl in *. exfalso. apply Hd. done.
Qed.

Lemma aggregated_rows (rows : list (Z * list Z)) :
  (∀ tup, (3, tup) ∈ rows → nth 2 tup 0 ≠ -1) →
  aggregated
    (foldl (λ m (row : Z * list Z), pull_active_table_size_tuple row.1 m row.2)
       ∅ rows) rows.
Proof.
  induction rows as [|row rows IH] using rev_ind; intros Hvalid.
  - apply aggregated_empty.
  - rewrite foldl_app. simpl. apply aggregated_step.
    + apply IH. intros tup Hin. apply Hvalid, elem_of_app. by left.
    + destruct row as [nf tup]. simpl. intros ->.
      apply Hvalid, elem_of_app. right. by apply list_elem_of_singleton.
Qed.

Lemma sum_sizes_bounds (l : list Z) (v : Z) :
  (∀ x, x ∈ l → 0 ≤ x) → v ∈ l → 0 ≤ sum_sizes l ∧ v ≤ sum_sizes l.
Proof.
  unfold sum_sizes. induction l as [|x l IH]; intros Hpos Hin.
  - by apply elem_of_nil in Hin.
  - simpl.
    assert (0 ≤ x) by (apply Hpos; by left).
    assert (0 ≤ foldr Z.add 0 l) as Hsum.
    { clear -Hpos. induction l as [|y l IH]; simpl; [lia|].
      assert (0 ≤ y) by (apply Hpos; right; by left).
      assert (0 ≤ foldr Z.add 0 l); [|lia].
      apply IH. intros z Hz. apply Hpos.
      apply elem_of_cons in Hz as [->|Hz]; [by left|]. right. by right. }
    apply elem_of_cons in Hin as [->|Hin]; [lia|].
    destruct IH as [_ ?]; [|done|lia].
    intros z Hz. apply Hpos. by right.
Qed.

Lemma reports_reported (rows : list (Z * list Z)) (R : Oid) (seg size : Z) :
  reports rows R seg size → size ∈ reported_sizes R rows.
Proof.
  intros (tup & Hin & HR & _ & Hsize). unfold reported_sizes.
  apply list_elem_of_fmap. exists (3, tup). split; [done|].
  by apply list_elem_of_filter.
Qed.

Lemma reported_sizes_le_all (R : Oid) (rows : list (Z * list Z)) :
  Forall (λ row : Z * list Z, 0 ≤ nth 1 row.2 0) rows →
  0 ≤ sum_sizes (reported_sizes R rows)
  ≤ sum_sizes ((λ row : Z * list Z, nth 1 row.2 0) <$> rows).
Proof.
  unfold reported_sizes, sum_sizes.
  induction 1 as [|row rows Hrow _ IH]; [simpl; lia|].
  rewrite filter_cons, fmap_cons.
  case_decide; [rewrite fmap_cons|]; simpl foldr; lia.
Qed.

End AggregationFacts.

(** C3.  When every segment answers the size request with tuples, no reply
    names segment -1, and the reported sizes are non-negative with a total
    that fits in [Size], the aggregation into the fresh map returns, and in
    its result every relation R that has an entry has, under seg_id -1, the
    sum of the sizes reported for R by all the segments; each (R, seg_id)
    reported in a three-column reply keeps an entry of its own, holding a
    size that segment reported for R. *)
Theorem aggregate_holds_sum_of_segments (host : Host)
    (active_oid_array : string) (s : State) :
  size_replies host active_oid_array ≠ [] →
  Forall (λ r, PQresultStatus r = PGRES_TUPLES_OK)
    (size_replies host active_oid_array) →
  Forall (λ row : Z * list Z, row.1 = 3 → nth 2 row.2 0 ≠ -1)
    (size_rows host active_oid_array) →
  Forall (λ row : Z * list Z, 0 ≤ nth 1 row.2 0)
    (size_rows host active_oid_array) →
  sum_sizes ((λ row : Z * list Z, nth 1 row.2 0)
             <$> size_rows host active_oid_array) < Size_modulus →
  ∃ m,
    pull_active_table_size_from_seg host ∅ active_oid_array s
    = Returned m
        (set_SEGCOUNT (Z.of_nat (length (size_replies host active_oid_array)))
           s)
    ∧ (∀ R seg, is_Some (m !! key_of R seg) →
         m !! key_of R (-1)
         = Some {| reloid := R; segid := -1;
                   tablesize :=
                     sum_sizes
                       (reported_sizes R (size_rows host active_oid_array)) |})
    ∧ (∀ R seg size,
         reports (size_rows host active_oid_array) R seg size →
         ∃ e size',
           m !! key_of R seg = Some e
           ∧ reloid e = R ∧ segid e = seg
           ∧ reports (size_rows host active_oid_array) R seg size'
           ∧ tablesize e = size').
Proof.
  intros Hne Hok Hseg Hpos Hfit.
  unfold size_rows, size_replies in *.
  set (results := CdbDispatchCommand host (fetch_size_sql active_oid_array))
    in *.
  set (rows := rows_of results) in *.
  destruct (aggregated_rows rows) as (Htot & Hsegs & Hrep).
  { intros tup Hin. by apply (proj1 (Forall_forall _ _) Hseg (3, tup)). }
  assert (∀ R, to_Size (sum_sizes (reported_sizes R rows))
               = sum_sizes (reported_sizes R rows)) as Hsmall.
  { intros R. pose proof (reported_sizes_le_all R rows Hpos).
    unfold to_Size. apply Z.mod_small. lia. }
  assert (∀ R seg size, reports rows R seg size → to_Size size = size)
    as Hsmall'.
  { intros R seg size Hr. apply reports_reported in Hr.
    pose proof (reported_sizes_le_all R rows Hpos).
    destruct (sum_sizes_bounds (reported_sizes R rows) size) as [_ ?];
      [|done|].
    - unfold reported_sizes. intros x Hx.
      apply list_elem_of_fmap in Hx as (row & -> & Hrow).
      apply list_elem_of_filter in Hrow as [_ Hrow].
      by apply (proj1 (Forall_forall _ _) Hpos row).
    - assert (0 ≤ size).
      { unfold reported_sizes in Hr.
        apply list_elem_of_fmap in Hr as (row & -> & Hrow).
        apply list_elem_of_filter in Hrow as [_ Hrow].
        by apply (proj1 (Forall_forall _ _) Hpos row). }
      unfold to_Size. apply Z.mod_small. lia. }
  eexists. split; [|split].
  - unfold pull_active_table_size_from_seg. cbv zeta. fold results.
    rewrite mbind_run. unfold modify_state.
    destruct (Z.leb_spec (Z.of_nat (length results)) 0) as [Hlen|_].
    { destruct results; [done|simpl in Hlen; lia]. }
    rewrite for_each_result_ok by done.
    rewrite foldl_rows_of. reflexivity.
  - fold rows. intros R seg [e He].
    assert (reported_sizes R rows ≠ []) as Hnonempty.
    { destruct (decide (seg = -1)) as [->|Hs].
      - intros Hnil. rewrite Htot, Hnil in He. done.
      - destruct (Hsegs R seg e Hs He) as (_ & _ & size & Hr & _).
        apply reports_reported in Hr. intros Hnil. rewrite Hnil in Hr.
        by apply elem_of_nil in Hr. }
    rewrite Htot, decide_False, Hsmall by done. done.
  - fold rows. intros R seg size Hr.
    assert (seg ≠ -1) as Hs.
    { destruct Hr as (tup & Hin & _ & <- & _).
      by apply (proj1 (Forall_forall _ _) Hseg (3, tup)). }
    destruct (Hrep R seg size Hs Hr) as [e He].
    destruct (Hsegs R seg e Hs He) as (? & ? & size' & Hr' & Hsz).
    exists e, size'. rewrite (Hsmall' R seg size' Hr') in Hsz. done.
Qed.

Lemma aggregate_holds_sum_of_segments_witness :
  ∃ m,
    pull_active_table_size_from_seg sample_host ∅ "{16385,16387}" sample_state
    = Returned m (set_SEGCOUNT 2 sample_state)
    ∧ m !! key_of 16385 (-1)
      = Some {| reloid := 16385; segid := -1; tablesize := 12288 |}
    ∧ is_Some (m !! key_of 16385 0)
    ∧ is_Some (m !! key_of 16385 1).
Proof.
  destruct (aggregate_holds_sum_of_segments sample_host "{16385,16387}"
              sample_state) as (m & Hrun & Htot & Hseg).
  - done.
  - by repeat constructor.
  - by_evaluation.
  - by_evaluation.
  - reflexivity.
  - assert (reports (size_rows sample_host "{16385,16387}") 16385 0 8192)
      as Hr0.
    { exists [16385; 8192; 0]. split; [by_evaluation|done]. }
    assert (reports (size_rows sample_host "{16385,16387}") 16385 1 4096)
      as Hr1.
    { exists [16385; 4096; 1]. split; [by_evaluation|done]. }
    destruct (Hseg _ _ _ Hr0) as (e0 & ? & He0 & _).
    destruct (Hseg _ _ _ Hr1) as (e1 & ? & He1 & _).
    exists m. split; [exact Hrun|]. split; [|eauto].
    exact (Htot 16385 0 (ex_intro _ e0 He0)).
Defined.

(** ** The size service of FETCH_ACTIVE_SIZE *)

Section SizeFacts.
Context (host : Host) (B : Backend).

(** One element of the array.  Whatever [pg_table_size] does, control
    comes back: with the size and the sub-transaction's locks kept when
    the call succeeds; with size 0, a warning in the log and the locks as
    they were at the savepoint when the call, or the fault injector after
    it, raises. *)
Lemma get_active_tables_stats_element_run (relOid : Oid)
    (t : gmap TableEntryKey DiskQuotaActiveTableEntry) (s : State) :
  get_active_tables_stats_element host B relOid t s
  = match pg_table_size host relOid (xact_resources s) with
    | (res, inr size) =>
      match fault_injector host "diskquota_fetch_table_stat" with
      | None =>
        Returned
          (<[key_of relOid (GpIdentity_segindex B) :=
               {| reloid := relOid; segid := GpIdentity_segindex B;
                  tablesize := to_Size size |}]> t)
          (set_xact_resources res s)
      | Some msg =>
        Returned
          (<[key_of relOid (GpIdentity_segindex B) :=
               {| reloid := relOid; segid := GpIdentity_segindex B;
                  tablesize := 0 |}]> t)
          (set_server_log ((WARNING, msg) :: server_log s) s)
      end
    | (res, inl msg) =>
      Returned
        (<[key_of relOid (GpIdentity_segindex B) :=
             {| reloid := relOid; segid := GpIdentity_segindex B;
                tablesize := 0 |}]> t)
        (set_server_log ((WARNING, msg) :: server_log s) s)
    end.
Proof.
  unfold get_active_tables_stats_element, call_pg_table_size,
    SIMPLE_FAULT_INJECTOR, PG_TRY, BeginInternalSubTransaction,
    ReleaseCurrentSubTransaction, RollbackAndReleaseCurrentSubTransaction,
    ereport_WARNING, ereport_ERROR, modify_state, mbind, M_bind, mret,
    M_ret, key_of.
  destruct (pg_table_size host relOid (xact_resources s)) as [res [msg|sz]];
    [by destruct s|].
  destruct (fault_injector host "diskquota_fetch_table_stat");
    by destruct s.
Qed.

Lemma get_active_tables_stats_element_returns (relOid : Oid)
    (t : gmap TableEntryKey DiskQuotaActiveTableEntry) (s : State) :
  ∃ size s',
    get_active_tables_stats_element host B relOid t s
    = Returned
        (<[key_of relOid (GpIdentity_segindex B) :=
             {| reloid := relOid; segid := GpIdentity_segindex B;
                tablesize := size |}]> t) s'.
Proof.
  rewrite get_active_tables_stats_element_run.
  repeat case_match; eauto.
Qed.

(** The loop never raises. *)
Lemma get_active_tables_stats_loop_returns (array : ArrayType) (n : nat)
    (c : ArrayCursor) (t : gmap TableEntryKey DiskQuotaActiveTableEntry)
    (s : State) :
  returned (get_active_tables_stats_loop host B array n c t s) = true.
Proof.
  revert c t s. induction n as [|n IH]; intros c t s; simpl; [done|].
  destruct (ARR_NULLBITMAP array) as [bits|].
  - case_match; [apply IH|].
    rewrite mbind_run.
    destruct (get_active_tables_stats_element_returns
                (nth (ptr c) (ARR_DATA array) 0) t s) as (sz & s' & ->).
    apply IH.
  - rewrite mbind_run.
    destruct (get_active_tables_stats_element_returns
                (nth (ptr c) (ARR_DATA array) 0) t s) as (sz & s' & ->).
    apply IH.
Qed.

(** Without a null bitmap every element gets its entry. *)
Lemma get_active_tables_stats_loop_no_nulls (array : ArrayType) (n : nat)
    (c : ArrayCursor) (t : gmap TableEntryKey DiskQuotaActiveTableEntry)
    (s : State) :
  ARR_NULLBITMAP array = None →
  ∃ t' s',
    get_active_tables_stats_loop host B array n c t s = Returned t' s'
    ∧ (∀ k, is_Some (t !! k) → is_Some (t' !! k))
    ∧ ∀ i, (i < n)%nat →
           is_Some (t' !! key_of (nth (ptr c + i) (ARR_DATA array) 0)
                            (GpIdentity_segindex B)).
Proof.
  intros Hnone. revert c t s.
  induction n as [|n IH]; intros c t s; simpl.
  - exists t, s. split; [done|]. split; [done|]. intros i Hi. lia.
  - rewrite Hnone, mbind_run.
    destruct (get_active_tables_stats_element_returns
                (nth (ptr c) (ARR_DATA array) 0) t s) as (sz & s1 & ->).
    destruct (IH {| ptr := S (ptr c); bitmap := bitmap c;
                    bitmask := bitmask c |}
                (<[key_of (nth (ptr c) (ARR_DATA array) 0)
                     (GpIdentity_segindex B) :=
                     {| reloid := nth (ptr c) (ARR_DATA array) 0;
                        segid := GpIdentity_segindex B;
                        tablesize := sz |}]> t) s1)
      as (t' & s' & -> & Hkeep & Hall).
    exists t', s'. split; [done|]. split.
    + intros k Hk. apply Hkeep.
      destruct (decide (key_of (nth (ptr c) (ARR_DATA array) 0)
                          (GpIdentity_segindex B) = k)) as [<-|Hne].
      * by rewrite lookup_insert_eq.
      * by rewrite lookup_insert_ne.
    + intros [|i] Hi.
      * rewrite Nat.add_0_r. apply Hkeep. by rewrite lookup_insert_eq.
      * simpl in Hall. replace (ptr c + S i)%nat with (S (ptr c + i))%nat
          by lia. apply Hall. lia.
Qed.

End SizeFacts.

(** C2, at the input where the code departs from it.  For the array
    [{NULL,16385}] the loop never reaches relation 16385: the null at
    index 0 takes the [continue], which skips the advance of the bitmap
    cursor, so index 1 tests the same bit again.  The call returns no row
    at all, and nothing was sized.  For [{16385,NULL}] the relation before
    the null is sized as intended. *)
Theorem stats_skip_relations_after_a_null :
  get_active_tables_stats sample_host sample_segment sample_array_null_first
    sample_state
  = Returned ∅ sample_state
  ∧ diskquota_fetch_table_stat sample_host sample_segment FETCH_ACTIVE_SIZE
      sample_array_null_first [] sample_state
    = Returned [] sample_state
  ∧ diskquota_fetch_table_stat sample_host sample_segment FETCH_ACTIVE_SIZE
      sample_array_null_last [] sample_state
    = Returned [[16385; 8192; 0]] (set_xact_resources [16385] sample_state).
Proof. split; [reflexivity|]. split; vm_compute; reflexivity. Qed.

(** An array without nulls has every one of its relations in the result,
    whether its size call raised or not. *)
Lemma get_active_tables_stats_no_nulls (host : Host) (B : Backend)
    (array : ArrayType) (s : State) :
  ARR_NULLBITMAP array = None →
  ∃ t s',
    get_active_tables_stats host B array s = Returned t s'
    ∧ ∀ i, (i < Z.to_nat (ArrayGetNItems (ARR_NDIM array) (ARR_DIMS array)))%nat →
           is_Some (t !! key_of (nth i (ARR_DATA array) 0)
                          (GpIdentity_segindex B)).
Proof.
  intros Hnone. unfold get_active_tables_stats.
  destruct (get_active_tables_stats_loop_no_nulls host B array
              (Z.to_nat (ArrayGetNItems (ARR_NDIM array) (ARR_DIMS array)))
              {| ptr := 0; bitmap := 0; bitmask := 1 |} ∅ s Hnone)
    as (t & s' & Hrun & _ & Hall).
  exists t, s'. split; [exact Hrun|]. intros i Hi. by apply Hall.
Qed.

Example get_active_tables_stats_dropped_relation :
  diskquota_fetch_table_stat sample_host sample_segment FETCH_ACTIVE_SIZE
    sample_array [] sample_state
  = Returned [[16385; 8192; 0]; [16386; 0; 0]]
      (set_server_log [(WARNING, "relation does not exist")]
         (set_xact_resources [16385] sample_state)).
Proof. vm_compute. reflexivity. Qed.

(** ** The set-returning function *)

(** On a mirror the file probes return at once. *)
Lemma other_backends_on_mirror (B : Backend)
    (events : list RelFileNodeBackend) (s : State) :
  IsRoleMirror B = true → other_backends B events s = Returned tt s.
Proof.
  intros Hmirror. unfold other_backends.
  induction events as [|ev events IH]; simpl; [done|].
  rewrite mbind_run, report_active_table_helper_spec. unfold file_probe_spec.
  rewrite Hmirror, orb_true_r. exact IH.
Qed.

(** The drain of an empty shared table. *)
Lemma drained_empty (B : Backend) (s : State) :
  active_tables_map s = ∅ → drained B s = ∅ ∧ kept B s = ∅.
Proof.
  intros Hempty. unfold drained, kept. rewrite Hempty. split; set_solver.
Qed.

(** C6, as amended.  In a process whose role is dispatch, which is the
    coordinator, or utility, [diskquota_fetch_table_stat] raises an error in
    FETCH_ACTIVE_OID mode as in any other, and leaves the state as it found
    it: "This function must not be called on master or by user", unless the
    SPI connection had failed before.  On a mirror it returns nothing, an
    empty result set and not an error: the shared table is created empty,
    the file probes return at once on a mirror, whatever storage events
    reach them, so the table is still empty when the function is called; the
    call, in a process whose role is neither dispatch nor utility and with
    the extension at major version 1 or 2, then returns no row and leaves
    the table empty, whatever is reported meanwhile. *)
Theorem fetch_table_stat_on_coordinator_and_mirror (host : Host)
    (B : Backend) (mode : Z) (array : ArrayType)
    (events concurrent : list RelFileNodeBackend) (s : State) :
  (Gp_role B = GP_ROLE_DISPATCH ∨ Gp_role B = GP_ROLE_UTILITY →
   diskquota_fetch_table_stat host B mode array concurrent s
   = Raised
       (if SPI_connect_ok host
        then "This function must not be called on master or by user"
        else "unable to connect to execute internal query") s)
  ∧ (IsRoleMirror B = true →
     Gp_role B ≠ GP_ROLE_DISPATCH →
     Gp_role B ≠ GP_ROLE_UTILITY →
     SPI_connect_ok host = true →
     get_ext_major_version host = 1 ∨ get_ext_major_version host = 2 →
     ∃ s0 s',
       (init_shm_worker_active_tables;;
        for_each (report_active_table_helper B) events) s
       = Returned tt s0
       ∧ active_tables_map s0 = ∅
       ∧ diskquota_fetch_table_stat host B FETCH_ACTIVE_OID array concurrent
           s0
         = Returned [] s'
       ∧ active_tables_map s' = ∅).
Proof.
  split.
  { intros Hrole. unfold diskquota_fetch_table_stat.
    destruct (SPI_connect_ok host); simpl; [|done].
    destruct Hrole as [-> | ->]; done. }
  intros Hmirror Hd Hu Hspi Hversion.
  exists (set_active_tables_map ∅ s). eexists.
  split.
  { rewrite mbind_run. unfold init_shm_worker_active_tables, modify_state.
    apply (other_backends_on_mirror B events _ Hmirror). }
  split; [done|].
  assert (active_tables_map (set_active_tables_map ∅ s) = ∅) as Hempty by done.
  destruct (drained_empty B _ Hempty) as [Hdrained Hkept].
  assert (unresolved host B (set_active_tables_map ∅ s) = ∅) as Hunresolved.
  { unfold unresolved. rewrite Hdrained. set_solver. }
  assert (at_put_back host B concurrent (set_active_tables_map ∅ s)
          = set_relation_cache (swept host (set_active_tables_map ∅ s))
              (set_active_tables_map ∅ (set_active_tables_map ∅ s)))
    as Hback.
  { unfold at_put_back. rewrite Hkept.
    by rewrite (other_backends_on_mirror B concurrent _ Hmirror). }
  unfold diskquota_fetch_table_stat. rewrite Hspi. simpl.
  rewrite !bool_decide_eq_false_2 by done. simpl.
  rewrite !mbind_run, get_active_tables_oid_run.
  rewrite Hdrained, Hunresolved, Hback, elements_empty. simpl.
  rewrite map_to_list_empty. simpl.
  destruct Hversion as [-> | ->]; simpl; (split; [reflexivity|done]).
Qed.

Lemma fetch_table_stat_on_coordinator_and_mirror_witness :
  diskquota_fetch_table_stat sample_host sample_coordinator FETCH_ACTIVE_OID
    sample_array [] sample_active_state
  = Raised "This function must not be called on master or by user"
      sample_active_state
  ∧ ∃ s0 s',
      (init_shm_worker_active_tables;;
       for_each (report_active_table_helper sample_mirror)
         [sample_rnode 16385; sample_rnode 16390]) sample_state
      = Returned tt s0
      ∧ diskquota_fetch_table_stat sample_host sample_mirror
          FETCH_ACTIVE_OID sample_array [sample_rnode 16391] s0
        = Returned [] s'.
Proof.
  split.
  - apply (fetch_table_stat_on_coordinator_and_mirror sample_host
             sample_coordinator FETCH_ACTIVE_OID sample_array [] []
             sample_active_state).
    left. reflexivity.
  - destruct (fetch_table_stat_on_coordinator_and_mirror sample_host
                sample_mirror FETCH_ACTIVE_OID sample_array
                [sample_rnode 16385; sample_rnode 16390]
                [sample_rnode 16391] sample_state)
      as (_ & Hmirror).
    destruct Hmirror as (s0 & s' & Hinit & _ & Hrun & _);
      [reflexivity|done|done|reflexivity|by right|].
    exists s0, s'. split; [exact Hinit|exact Hrun].
Defined.

(** C6 as stated fails: called on the coordinator in FETCH_ACTIVE_OID mode,
    the function does not return an empty set, it raises. *)
Lemma fetch_active_oid_on_coordinator_is_an_error :
  IS_QUERY_DISPATCHER sample_coordinator = true
  ∧ Gp_role sample_coordinator = GP_ROLE_DISPATCH
  ∧ returned (diskquota_fetch_table_stat sample_host sample_coordinator
                FETCH_ACTIVE_OID sample_array [] sample_active_state) = false
  ∧ diskquota_fetch_table_stat sample_host sample_coordinator
      FETCH_ACTIVE_OID sample_array [] sample_active_state
    ≠ Returned [] sample_active_state.
Proof. repeat split; done. Qed.

(** The function reads no mirror flag of its own: what a mirror gets
    follows from what its shared table holds. *)
Lemma fetch_table_stat_ignores_mirror_flag (host : Host) (role : GpRoleValue)
    (segindex : Z) (mirror : bool) (db : Oid) (cap : nat) (mode : Z)
    (array : ArrayType) (s : State) :
  diskquota_fetch_table_stat host
    {| Gp_role := role; GpIdentity_segindex := segindex;
       IsRoleMirror := mirror; MyDatabaseId := db;
       diskquota_max_active_tables := cap |} mode array [] s
  = diskquota_fetch_table_stat host
      {| Gp_role := role; GpIdentity_segindex := segindex;
         IsRoleMirror := false; MyDatabaseId := db;
         diskquota_max_active_tables := cap |} mode array [] s.
Proof. reflexivity. Qed.

Lemma fetch_table_stat_returns_iff_version (host : Host) (B : Backend)
    (mode : Z) (array : ArrayType) (concurrent : list RelFileNodeBackend)
    (s : State) :
  SPI_connect_ok host = true →
  Gp_role B ≠ GP_ROLE_DISPATCH →
  Gp_role B ≠ GP_ROLE_UTILITY →
  mode = FETCH_ACTIVE_OID ∨ mode = FETCH_ACTIVE_SIZE →
  returned (diskquota_fetch_table_stat host B mode array concurrent s)
  = bool_decide (get_ext_major_version host = 1
                 ∨ get_ext_major_version host = 2).
Proof.
  intros Hspi Hd Hu Hmode. unfold diskquota_fetch_table_stat.
  rewrite Hspi. simpl.
  rewrite !bool_decide_eq_false_2 by done. simpl.
  rewrite mbind_run.
  assert (∃ es s1,
            (if mode =? FETCH_ACTIVE_OID
             then t ← get_active_tables_oid host B concurrent;
                  mret ((map_to_list t).*2)
             else if mode =? FETCH_ACTIVE_SIZE
                  then t ← get_active_tables_stats host B array;
                       mret ((map_to_list t).*2)
                  else ereport_ERROR
                         "Unused mode number, transaction will be aborted") s
            = Returned es s1) as (es & s1 & ->).
  { destruct Hmode as [-> | ->]; simpl; rewrite mbind_run.
    - rewrite get_active_tables_oid_run. eauto.
    - pose proof (get_active_tables_stats_loop_returns host B array
                    (Z.to_nat (ArrayGetNItems (ARR_NDIM array)
                                 (ARR_DIMS array)))
                    {| ptr := 0; bitmap := 0; bitmask := 1 |} ∅ s) as Hret.
      unfold get_active_tables_stats.
      destruct (get_active_tables_stats_loop _ _ _ _ _ _ s); [eauto|done]. }
  rewrite mbind_run.
  destruct (Z.eqb_spec (get_ext_major_version host) 1) as [H1|H1].
  { simpl. symmetry. apply bool_decide_eq_true_2. by left. }
  destruct (Z.eqb_spec (get_ext_major_version host) 2) as [H2|H2].
  { simpl. symmetry. apply bool_decide_eq_true_2. by right. }
  simpl. symmetry. apply bool_decide_eq_false_2. by intros [?|?].
Qed.

(** What the set-returning function returns on a segment: one row for each
    entry of the table its mode builds, of two or of three columns by the
    major version, or the error of an unknown version. *)
Lemma fetch_table_stat_reply (host : Host) (B : Backend) (mode : Z)
    (array : ArrayType) (concurrent : list RelFileNodeBackend)
    (s s1 : State) (entries : list DiskQuotaActiveTableEntry) :
  SPI_connect_ok host = true →
  Gp_role B ≠ GP_ROLE_DISPATCH →
  Gp_role B ≠ GP_ROLE_UTILITY →
  (if mode =? FETCH_ACTIVE_OID
   then t ← get_active_tables_oid host B concurrent;
        mret ((map_to_list t).*2)
   else if mode =? FETCH_ACTIVE_SIZE
        then t ← get_active_tables_stats host B array;
             mret ((map_to_list t).*2)
        else ereport_ERROR
               "Unused mode number, transaction will be aborted") s
  = Returned entries s1 →
  diskquota_fetch_table_stat host B mode array concurrent s
  = reply_of_version (get_ext_major_version host) entries s1.
Proof.
  intros Hspi Hd Hu Hinner.
  unfold diskquota_fetch_table_stat, reply_of_version. rewrite Hspi. simpl.
  rewrite !bool_decide_eq_false_2 by done. simpl.
  rewrite mbind_run, Hinner, mbind_run.
  destruct (get_ext_major_version host =? 1); [done|].
  by destruct (get_ext_major_version host =? 2).
Qed.

Lemma get_active_tables_stats_returns (host : Host) (B : Backend)
    (array : ArrayType) (s : State) :
  ∃ t s1, get_active_tables_stats host B array s = Returned t s1.
Proof.
  pose proof (get_active_tables_stats_loop_returns host B array
                (Z.to_nat (ArrayGetNItems (ARR_NDIM array) (ARR_DIMS array)))
                {| ptr := 0; bitmap := 0; bitmask := 1 |} ∅ s) as Hret.
  unfold get_active_tables_stats.
  destruct (get_active_tables_stats_loop _ _ _ _ _ _ s); [eauto|done].
Qed.

(** What the coordinator makes of one row of a reply. *)
Lemma pull_active_table_size_tuple_total (nfields : Z)
    (m : gmap TableEntryKey DiskQuotaActiveTableEntry) (tup : list Z) :
  nfields ≠ 3 ∨ nth 2 tup 0 ≠ -1 →
  pull_active_table_size_tuple nfields m tup !! key_of (nth 0 tup 0) (-1)
  = Some (add_to_total m (nth 0 tup 0) (nth 1 tup 0)).
Proof.
  intros Hcase. unfold pull_active_table_size_tuple, add_to_total, key_of.
  cbv zeta.
  destruct (Z.eqb_spec nfields 3) as [H3|H3].
  - destruct Hcase as [?|Hseg]; [done|].
    rewrite lookup_insert_ne by (intros [= ?]; done).
    destruct (m !! _); by rewrite lookup_insert_eq.
  - destruct (m !! _); by rewrite lookup_insert_eq.
Qed.

Lemma pull_active_table_size_tuple_segment
    (m : gmap TableEntryKey DiskQuotaActiveTableEntry) (tup : list Z) :
  nth 2 tup 0 ≠ -1 →
  pull_active_table_size_tuple 3 m tup
    !! key_of (nth 0 tup 0) (nth 2 tup 0)
  = Some {| reloid := nth 0 tup 0; segid := nth 2 tup 0;
            tablesize := to_Size (nth 1 tup 0) |}.
Proof.
  intros Hseg. unfold pull_active_table_size_tuple, key_of. cbv zeta.
  change (3 =? 3) with true. cbv iota.
  destruct (_ !! {| key_reloid := nth 0 tup 0; key_segid := -1 |});
    (rewrite lookup_insert_ne by (intros [= ?]; done));
    by rewrite lookup_insert_eq.
Qed.

Lemma pull_active_table_size_tuple_total_twice
    (m : gmap TableEntryKey DiskQuotaActiveTableEntry) (tup : list Z) :
  nth 2 tup 0 = -1 →
  pull_active_table_size_tuple 3 m tup !! key_of (nth 0 tup 0) (-1)
  = Some {| reloid := nth 0 tup 0; segid := -1;
            tablesize := to_Size (to_Size (nth 1 tup 0)
                                  + to_Size (nth 1 tup 0)) |}.
Proof.
  intros Hseg. unfold pull_active_table_size_tuple, key_of. cbv zeta.
  change (3 =? 3) with true. cbv iota. rewrite Hseg.
  by rewrite !lookup_insert_eq.
Qed.

Lemma pull_active_table_size_tuple_others (nfields : Z)
    (m : gmap TableEntryKey DiskQuotaActiveTableEntry) (tup : list Z)
    (k : TableEntryKey) :
  k ≠ key_of (nth 0 tup 0) (-1) →
  nfields ≠ 3 ∨ k ≠ key_of (nth 0 tup 0) (nth 2 tup 0) →
  pull_active_table_size_tuple nfields m tup !! k = m !! k.
Proof.
  intros Htotal Hcase. unfold pull_active_table_size_tuple. cbv zeta.
  fold (key_of (nth 0 tup 0) (-1)).
  fold (key_of (nth 0 tup 0) (nth 2 tup 0)).
  destruct (Z.eqb_spec nfields 3) as [H3|H3].
  - destruct Hcase as [?|Hseg]; [done|].
    destruct (_ !! key_of (nth 0 tup 0) (-1));
      rewrite !lookup_insert_ne; done.
  - destruct (_ !! key_of (nth 0 tup 0) (-1));
      rewrite lookup_insert_ne; done.
Qed.

(** What [load_table_size] makes of the rows of [diskquota.table_size]. *)
Lemma load_table_size_row_others
    (m : gmap TableEntryKey DiskQuotaActiveTableEntry)
    (tup : list (option Z)) (k : TableEntryKey) :
  row_key tup ≠ Some k → load_table_size_row m tup !! k = m !! k.
Proof.
  unfold load_table_size_row, row_key.
  destruct (nth 0 tup None) as [r|]; [|done].
  destruct (nth 1 tup None) as [sz|]; [|done].
  destruct (nth 2 tup None) as [sg|]; [|done].
  fold (key_of r sg). intros Hne.
  rewrite lookup_insert_ne; [done|]. intros Heq. apply Hne. by rewrite Heq.
Qed.

Lemma foldl_load_table_size_row_others (rows : list (list (option Z)))
    (m : gmap TableEntryKey DiskQuotaActiveTableEntry) (k : TableEntryKey) :
  (∀ tup, tup ∈ rows → row_key tup ≠ Some k) →
  foldl load_table_size_row m rows !! k = m !! k.
Proof.
  revert m. induction rows as [|row rows IH]; intros m Hnone; simpl; [done|].
  rewrite IH by (intros tup Hin; apply Hnone; by right).
  apply load_table_size_row_others, Hnone. by left.
Qed.

Lemma foldl_load_table_size_row_last (l1 l2 : list (list (option Z)))
    (tup : list (option Z)) (r size seg : Z)
    (m : gmap TableEntryKey DiskQuotaActiveTableEntry) :
  nth 0 tup None = Some r →
  nth 1 tup None = Some size →
  nth 2 tup None = Some seg →
  (∀ t, t ∈ l2 → row_key t ≠ Some (key_of r seg)) →
  foldl load_table_size_row m (l1 ++ tup :: l2) !! key_of r seg
  = Some {| reloid := r; segid := seg; tablesize := to_Size size |}.
Proof.
  intros H0 H1 H2 Hlater. rewrite foldl_app. simpl.
  rewrite foldl_load_table_size_row_others by done.
  unfold load_table_size_row. rewrite H0, H1, H2.
  fold (key_of r seg). by rewrite lookup_insert_eq.
Qed.

Lemma pull_active_table_size_from_seg_run (host : Host)
    (m : gmap TableEntryKey DiskQuotaActiveTableEntry)
    (active_oid_array : string) (s : State) :
  size_replies host active_oid_array ≠ [] →
  Forall (λ r, PQresultStatus r = PGRES_TUPLES_OK)
    (size_replies host active_oid_array) →
  pull_active_table_size_from_seg host m active_oid_array s
  = Returned
      (foldl (λ m (row : Z * list Z),
                pull_active_table_size_tuple row.1 m row.2)
         m (size_rows host active_oid_array))
      (set_SEGCOUNT (Z.of_nat (length (size_replies host active_oid_array)))
         s).
Proof.
  intros Hne Hok. unfold pull_active_table_size_from_seg, size_rows. cbv zeta.
  fold (size_replies host active_oid_array).
  rewrite mbind_run. unfold modify_state.
  destruct (Z.leb_spec
              (Z.of_nat (length (size_replies host active_oid_array))) 0)
    as [Hlen|_].
  { destruct (size_replies host active_oid_array);
      [done|simpl in Hlen; lia]. }
  rewrite for_each_result_ok by done.
  by rewrite foldl_rows_of.
Qed.

(** C7.  The shape of the internal RPC follows the major version of the
    extension, and the coordinator consumes the columns that are there.

    On a segment, in either mode, the call succeeds exactly for versions 1
    and 2.  Its rows are, for each entry of the table its mode has built,
    (relation_id, size) under version 1 and (relation_id, size, seg_id)
    under version 2; under any other version it raises, after the table was
    built.

    The coordinator reads each row with the column count of the reply the
    row came in.  Of a row of a reply that has not three columns it reads
    the relation and the size, and adds the size to the relation's total,
    which is kept under seg_id -1; no other entry changes, whatever else the
    row holds.  Of a row of a three-column reply it also reads the seg_id
    and stores the size under (relation, seg_id) before adding it to the
    total; a three-column row whose seg_id is -1 is thus stored as the total
    and then added to itself.

    [load_table_size] selects a constant -1 as seg_id under version 1 and
    the segid column under version 2, and raises for any other version.
    From a result of an oid, an int8 and an int2 column it loads three
    columns of every row: a key that no complete row carries keeps what it
    had, and a key carried by a complete row holds the relation, the seg_id
    and the size of the last such row. *)
Theorem result_shape_follows_version (host : Host) (B coordinator : Backend)
    (mode : Z) (array : ArrayType) (concurrent : list RelFileNodeBackend)
    (s : State) (m : gmap TableEntryKey DiskQuotaActiveTableEntry)
    (nfields : Z) (tup : list Z) (active_oid_array : string) :
  (SPI_connect_ok host = true →
   Gp_role B ≠ GP_ROLE_DISPATCH →
   Gp_role B ≠ GP_ROLE_UTILITY →
   (mode = FETCH_ACTIVE_OID ∨ mode = FETCH_ACTIVE_SIZE →
    returned (diskquota_fetch_table_stat host B mode array concurrent s)
    = bool_decide (get_ext_major_version host = 1
                   ∨ get_ext_major_version host = 2))
   ∧ (∃ t s1,
        get_active_tables_oid host B concurrent s = Returned t s1
        ∧ diskquota_fetch_table_stat host B FETCH_ACTIVE_OID array concurrent
            s
          = reply_of_version (get_ext_major_version host)
              ((map_to_list t).*2) s1)
   ∧ (∃ t s1,
        get_active_tables_stats host B array s = Returned t s1
        ∧ diskquota_fetch_table_stat host B FETCH_ACTIVE_SIZE array
            concurrent s
          = reply_of_version (get_ext_major_version host)
              ((map_to_list t).*2) s1)
   ∧ (∀ entries s1,
        reply_of_version 1 entries s1
        = Returned ((λ e, [reloid e; to_int64 (tablesize e)]) <$> entries) s1
        ∧ reply_of_version 2 entries s1
          = Returned
              ((λ e, [reloid e; to_int64 (tablesize e); to_int16 (segid e)])
               <$> entries) s1))
  ∧ (size_replies host active_oid_array ≠ [] →
     Forall (λ r, PQresultStatus r = PGRES_TUPLES_OK)
       (size_replies host active_oid_array) →
     pull_active_table_size_from_seg host m active_oid_array s
     = Returned
         (foldl (λ m (row : Z * list Z),
                   pull_active_table_size_tuple row.1 m row.2)
            m (size_rows host active_oid_array))
         (set_SEGCOUNT
            (Z.of_nat (length (size_replies host active_oid_array))) s))
  ∧ (nfields ≠ 3 →
     pull_active_table_size_tuple nfields m tup
       !! key_of (nth 0 tup 0) (-1)
     = Some (add_to_total m (nth 0 tup 0) (nth 1 tup 0))
     ∧ ∀ k, k ≠ key_of (nth 0 tup 0) (-1) →
            pull_active_table_size_tuple nfields m tup !! k = m !! k)
  ∧ (nth 2 tup 0 ≠ -1 →
     pull_active_table_size_tuple 3 m tup
       !! key_of (nth 0 tup 0) (nth 2 tup 0)
     = Some {| reloid := nth 0 tup 0; segid := nth 2 tup 0;
               tablesize := to_Size (nth 1 tup 0) |}
     ∧ pull_active_table_size_tuple 3 m tup !! key_of (nth 0 tup 0) (-1)
       = Some (add_to_total m (nth 0 tup 0) (nth 1 tup 0))
     ∧ ∀ k, k ≠ key_of (nth 0 tup 0) (nth 2 tup 0) →
            k ≠ key_of (nth 0 tup 0) (-1) →
            pull_active_table_size_tuple 3 m tup !! k = m !! k)
  ∧ (nth 2 tup 0 = -1 →
     pull_active_table_size_tuple 3 m tup !! key_of (nth 0 tup 0) (-1)
     = Some {| reloid := nth 0 tup 0; segid := -1;
               tablesize := to_Size (to_Size (nth 1 tup 0)
                                     + to_Size (nth 1 tup 0)) |}
     ∧ ∀ k, k ≠ key_of (nth 0 tup 0) (-1) →
            pull_active_table_size_tuple 3 m tup !! k = m !! k)
  ∧ (get_ext_major_version host ≠ 1 →
     get_ext_major_version host ≠ 2 →
     load_table_size host coordinator m s
     = Raised ("[diskquota] unknown diskquota extension version: "
               +:+ pretty (get_ext_major_version host)) s)
  ∧ (∀ res,
       get_ext_major_version host = 1
       ∧ res = SPI_execute host
                 "select tableid, size, CAST(-1 AS smallint) from diskquota.table_size"
       ∨ get_ext_major_version host = 2
         ∧ res = SPI_execute host
                   "select tableid, size, segid from diskquota.table_size" →
       SPI_result res = SPI_OK_SELECT →
       tupdesc_atttypid res = [OIDOID; INT8OID; INT2OID] →
       ∃ m',
         load_table_size host coordinator m s = Returned m' s
         ∧ (∀ k, (∀ row, row ∈ SPI_vals res → row_key row ≠ Some k) →
                 m' !! k = m !! k)
         ∧ ∀ l1 row l2 r size seg,
             SPI_vals res = l1 ++ row :: l2 →
             nth 0 row None = Some r →
             nth 1 row None = Some size →
             nth 2 row None = Some seg →
             (∀ later, later ∈ l2 → row_key later ≠ Some (key_of r seg)) →
             m' !! key_of r seg
             = Some {| reloid := r; segid := seg;
                       tablesize := to_Size size |}).
Proof.
  split.
  { intros Hspi Hd Hu.
    split; [by apply fetch_table_stat_returns_iff_version|].
    split; [|split; [|done]].
    - eexists _, _. split; [apply get_active_tables_oid_run|].
      apply fetch_table_stat_reply; [done..|].
      simpl. by rewrite mbind_run, get_active_tables_oid_run.
    - destruct (get_active_tables_stats_returns host B array s)
        as (t & s1 & Hinner).
      exists t, s1. split; [exact Hinner|].
      apply fetch_table_stat_reply; [done..|].
      simpl. by rewrite mbind_run, Hinner. }
  split; [apply pull_active_table_size_from_seg_run|].
  split.
  { intros H3. split; [apply pull_active_table_size_tuple_total; by left|].
    intros k Hk. apply pull_active_table_size_tuple_others; [done|by left]. }
  split.
  { intros Hseg. split; [by apply pull_active_table_size_tuple_segment|].
    split; [apply pull_active_table_size_tuple_total; by right|].
    intros k Hk1 Hk2.
    apply pull_active_table_size_tuple_others; [done|by right]. }
  split.
  { intros Hseg. split; [by apply pull_active_table_size_tuple_total_twice|].
    intros k Hk. apply pull_active_table_size_tuple_others; [done|].
    right. by rewrite Hseg. }
  split.
  { intros H1 H2. unfold load_table_size. cbv zeta.
    destruct (Z.eqb_spec (get_ext_major_version host) 1); [done|].
    by destruct (Z.eqb_spec (get_ext_major_version host) 2). }
  intros res Hquery Hsel Hatts.
  assert (load_table_size host coordinator m s
          = load_table_size_result host coordinator res m s) as ->.
  { unfold load_table_size. cbv zeta.
    destruct Hquery as [[-> ->]|[-> ->]]; reflexivity. }
  unfold load_table_size_result. rewrite Hsel, Hatts.
  eexists. split; [reflexivity|]. split.
  - intros k Hnone. by apply foldl_load_table_size_row_others.
  - intros l1 row l2 r size seg -> H0 H1 H2 Hlater.
    by apply foldl_load_table_size_row_last.
Qed.

Lemma result_shape_follows_version_witness :
  returned (diskquota_fetch_table_stat (sample_host_version 1)
              sample_segment FETCH_ACTIVE_SIZE sample_array_null_last []
              sample_state) = true
  ∧ diskquota_fetch_table_stat (sample_host_version 1) sample_segment
      FETCH_ACTIVE_SIZE sample_array_null_last [] sample_state
    = Returned [[16385; 8192]] (set_xact_resources [16385] sample_state)
  ∧ pull_active_table_size_tuple 2 ∅ [16385; 8192] !! key_of 16385 (-1)
    = Some {| reloid := 16385; segid := -1; tablesize := 8192 |}
  ∧ pull_active_table_size_tuple 2 ∅ [16385; 8192] !! key_of 16385 0 = None
  ∧ ∃ m',
      load_table_size (sample_host_version 1) sample_coordinator ∅
        sample_state
      = Returned m' sample_state
      ∧ m' !! key_of 16385 (-1)
        = Some {| reloid := 16385; segid := -1; tablesize := 12288 |}.
Proof.
  destruct (result_shape_follows_version (sample_host_version 1)
              sample_segment sample_coordinator FETCH_ACTIVE_SIZE
              sample_array_null_last [] sample_state ∅ 2 [16385; 8192]
              EmptyString)
    as (Hsegment & _ & Htwo & _ & _ & _ & Hload).
  destruct Hsegment as (Hret & _ & (t & s1 & Hinner & Hrows) & _);
    [reflexivity|done|done|].
  destruct (Htwo ltac:(done)) as (Htotal & Hothers).
  assert (get_ext_major_version (sample_host_version 1) = 1
          ∧ SPI_execute (sample_host_version 1)
              "select tableid, size, CAST(-1 AS smallint) from diskquota.table_size"
            = SPI_execute (sample_host_version 1)
                "select tableid, size, CAST(-1 AS smallint) from diskquota.table_size")
    as Hquery by (split; reflexivity).
  destruct (Hload _ (or_introl Hquery) eq_refl eq_refl)
    as (m' & Hrun & _ & Hlast).
  split; [apply Hret; by right|].
  split.
  { rewrite Hrows. vm_compute in Hinner. injection Hinner as <- <-.
    vm_compute. reflexivity. }
  split; [etrans; [apply Htotal|reflexivity]|].
  split.
  { etrans; [apply Hothers|reflexivity]. intros [=]. }
  exists m'. split; [exact Hrun|].
  apply (Hlast [] [Some 16385; Some 12288; Some (-1)] [] 16385 12288 (-1));
    try reflexivity.
  intros later Hin. clear -Hin. inversion Hin.
Defined.

(** * Further properties of the module *)

(** ** Probes and the shared table *)

(** Reporting the same file twice leaves the shared table as reporting it
    once does: the second report finds the entry, or finds the table as
    full as the first did. *)
Theorem report_twice_is_report_once (B : Backend) (rnode : RelFileNodeBackend)
    (s : State) :
  active_tables_map
    (state_after
       ((report_active_table_helper B rnode;;
         report_active_table_helper B rnode) s))
  = active_tables_map (state_after (report_active_table_helper B rnode s)).
Proof.
  rewrite mbind_run, report_active_table_helper_spec.
  unfold file_probe_spec.
  destruct (IS_QUERY_DISPATCHER B || IsRoleMirror B) eqn:Hrole.
  { rewrite report_active_table_helper_spec. unfold file_probe_spec.
    by rewrite Hrole. }
  destruct (bool_decide (dbNode (node rnode) ∉ monitoring_dbid_cache s))
    eqn:Hmon.
  { rewrite report_active_table_helper_spec. unfold file_probe_spec.
    by rewrite Hrole, Hmon. }
  destruct (bool_decide (item_of rnode ∈ active_tables_map s)) eqn:Hin.
  { rewrite report_active_table_helper_spec. unfold file_probe_spec.
    by rewrite Hrole, Hmon, Hin. }
  destruct (bool_decide (size (active_tables_map s)
                         < diskquota_max_active_tables B)%nat) eqn:Hroom;
    rewrite report_active_table_helper_spec; unfold file_probe_spec;
    rewrite Hrole; simpl; rewrite Hmon.
  - rewrite bool_decide_eq_true_2; [done|]. set_solver.
  - by rewrite Hin, Hroom.
Qed.

(** ** The drain without interference *)

Lemma kept_unresolved_subseteq (host : Host) (B : Backend) (s : State) :
  kept B s ∪ unresolved host B s ⊆ active_tables_map s.
Proof.
  unfold kept, unresolved, drained. intros x.
  rewrite elem_of_union, !elem_of_filter. tauto.
Qed.

(** With no other backend reporting in between, and the table within its
    capacity, the drain loses nothing: it returns the primaries of the
    entries that resolve and leaves in the shared table the entries of the
    other databases together with the entries that did not resolve.  The
    relation cache is the swept one; locks, log and transaction are as
    before. *)
Theorem drain_alone_loses_nothing (host : Host) (B : Backend) (s : State) :
  (size (active_tables_map s) ≤ diskquota_max_active_tables B)%nat →
  ∃ stats,
    get_active_tables_oid host B [] s
    = Returned stats
        (set_active_tables_map (kept B s ∪ unresolved host B s)
           (set_relation_cache (swept host s) s))
    ∧ dom stats = resolved_ids host B s.
Proof.
  intros Hle. eexists. split; [|apply resolved_after_resolve].
  rewrite get_active_tables_oid_run.
  assert (at_put_back host B [] s
          = set_relation_cache (swept host s)
              (set_active_tables_map (kept B s) s)) as -> by done.
  simpl. rewrite enter_all_room.
  - rewrite list_to_set_elements_L. by destruct s.
  - rewrite list_to_set_elements_L. etrans; [|exact Hle].
    apply subseteq_size, kept_unresolved_subseteq.
Qed.

Lemma drain_alone_loses_nothing_witness :
  ∃ stats,
    get_active_tables_oid sample_host sample_segment3 [] sample_active_state
    = Returned stats
        (set_active_tables_map
           (kept sample_segment3 sample_active_state
            ∪ unresolved sample_host sample_segment3 sample_active_state)
           (set_relation_cache (swept sample_host sample_active_state)
              sample_active_state))
    ∧ dom stats = {[16385]}.
Proof.
  destruct (drain_alone_loses_nothing sample_host sample_segment3
              sample_active_state) as (stats & Hrun & Hdom).
  { vm_compute. lia. }
  exists stats. split; [exact Hrun|]. rewrite Hdom. by_evaluation.
Defined.

(** ** The set-returning function in FETCH_ACTIVE_OID mode *)

(** On a segment of a version-2 installation, FETCH_ACTIVE_OID returns one
    row per distinct primary relation among the resolved entries, however
    many files of a relation were active: the rows are the triples
    (relation, 0, -1), and there are as many as there are such
    relations. *)
Theorem fetch_active_oid_returns_each_primary_once (host : Host)
    (B : Backend) (array : ArrayType) (concurrent : list RelFileNodeBackend)
    (s : State) :
  SPI_connect_ok host = true →
  Gp_role B ≠ GP_ROLE_DISPATCH →
  Gp_role B ≠ GP_ROLE_UTILITY →
  get_ext_major_version host = 2 →
  ∃ rows,
    diskquota_fetch_table_stat host B FETCH_ACTIVE_OID array concurrent s
    = Returned rows (state_after (get_active_tables_oid host B concurrent s))
    ∧ length rows = size (resolved_ids host B s)
    ∧ ∀ row, row ∈ rows
             ↔ ∃ r, r ∈ resolved_ids host B s ∧ row = [r; 0; -1].
Proof.
  intros Hspi Hd Hu Hv. unfold diskquota_fetch_table_stat.
  rewrite Hspi, Hv. simpl.
  rewrite !bool_decide_eq_false_2 by done. simpl.
  rewrite !mbind_run, get_active_tables_oid_run. simpl.
  destruct (resolved_after_resolve host B s) as [Hdom Hval].
  set (stats := (foldl (resolve_step host (swept host s)) (∅, drained B s)
                   (elements (drained B s))).1) in *.
  eexists. split; [reflexivity|]. split.
  - rewrite !length_fmap, length_map_to_list, <- Hdom.
    symmetry. apply size_dom.
  - intros row. rewrite list_elem_of_fmap. split.
    + intros (e & -> & He).
      apply list_elem_of_fmap in He as ([k e'] & -> & Hke).
      apply elem_of_map_to_list in Hke. simpl.
      exists k. split.
      * rewrite <- Hdom. by apply elem_of_dom_2 in Hke.
      * by rewrite (Hval k e' Hke).
    + intros (r & Hr & ->). rewrite <- Hdom in Hr.
      apply elem_of_dom in Hr as [e He].
      exists e. split.
      * by rewrite (Hval r e He).
      * apply list_elem_of_fmap. exists (r, e). split; [done|].
        by apply elem_of_map_to_list.
Qed.

Lemma fetch_active_oid_returns_each_primary_once_witness :
  ∃ rows,
    diskquota_fetch_table_stat sample_host sample_segment3 FETCH_ACTIVE_OID
      sample_array [] sample_active_state
    = Returned rows
        (state_after (get_active_tables_oid sample_host sample_segment3 []
                        sample_active_state))
    ∧ length rows = 1%nat
    ∧ [16385; 0; -1] ∈ rows.
Proof.
  destruct (fetch_active_oid_returns_each_primary_once sample_host
              sample_segment3 sample_array [] sample_active_state)
    as (rows & Hrun & Hlen & Hrows); [reflexivity|done|done|reflexivity|].
  exists rows. split; [exact Hrun|]. split.
  - rewrite Hlen. vm_compute. reflexivity.
  - apply Hrows. exists 16385. split; [by_evaluation|reflexivity].
Defined.

(** The version is looked at after the mode has done its work.  With an
    extension version other than 1 or 2, FETCH_ACTIVE_OID raises, but only
    once the shared table has been drained: an entry of the current
    database that resolved is gone from the table although no row was
    returned for it. *)
Theorem unknown_version_raises_after_the_drain (host : Host) (B : Backend)
    (array : ArrayType) (s : State) (e : DiskQuotaActiveTableFileEntry) :
  SPI_connect_ok host = true →
  Gp_role B ≠ GP_ROLE_DISPATCH →
  Gp_role B ≠ GP_ROLE_UTILITY →
  get_ext_major_version host ≠ 1 →
  get_ext_major_version host ≠ 2 →
  e ∈ active_tables_map s →
  dbid e = MyDatabaseId B →
  relid_of host (swept host s) e ≠ InvalidOid →
  diskquota_fetch_table_stat host B FETCH_ACTIVE_OID array [] s
  = Raised ("[diskquota] unknown diskquota extension version: "
            +:+ pretty (get_ext_major_version host))
      (state_after (get_active_tables_oid host B [] s))
  ∧ e ∉ active_tables_map
          (state_after
             (diskquota_fetch_table_stat host B FETCH_ACTIVE_OID array [] s)).
Proof.
  intros Hspi Hd Hu H1 H2 Hin Hdb Hres.
  assert (diskquota_fetch_table_stat host B FETCH_ACTIVE_OID array [] s
          = Raised ("[diskquota] unknown diskquota extension version: "
                    +:+ pretty (get_ext_major_version host))
              (state_after (get_active_tables_oid host B [] s))) as Hrun.
  { unfold diskquota_fetch_table_stat. rewrite Hspi. simpl.
    rewrite !bool_decide_eq_false_2 by done. simpl.
    rewrite !mbind_run, get_active_tables_oid_run. simpl.
    destruct (Z.eqb_spec (get_ext_major_version host) 1); [done|].
    destruct (Z.eqb_spec (get_ext_major_version host) 2); done. }
  split; [exact Hrun|]. rewrite Hrun, get_active_tables_oid_run. simpl.
  intros Hfinal. apply enter_all_upper in Hfinal.
  rewrite list_to_set_elements_L in Hfinal.
  apply elem_of_union in Hfinal as [Hk|Hun].
  - apply elem_of_filter in Hk as [Hne _]. done.
  - apply elem_of_filter in Hun as [Heq _]. done.
Qed.

Lemma unknown_version_raises_after_the_drain_witness :
  returned (diskquota_fetch_table_stat (sample_host_version 3)
              sample_segment3 FETCH_ACTIVE_OID sample_array []
              sample_active_state) = false
  ∧ item_of (sample_rnode 16385)
    ∉ active_tables_map
        (state_after
           (diskquota_fetch_table_stat (sample_host_version 3)
              sample_segment3 FETCH_ACTIVE_OID sample_array []
              sample_active_state)).
Proof.
  destruct (unknown_version_raises_after_the_drain (sample_host_version 3)
              sample_segment3 sample_array sample_active_state
              (item_of (sample_rnode 16385)))
    as [Hrun Hgone];
    [reflexivity|done|done|done|done|by_evaluation|reflexivity|
     by_evaluation|].
  split; [by rewrite Hrun|exact Hgone].
Defined.

(** ** The size service *)

Lemma get_active_tables_stats_loop_keys (host : Host) (B : Backend)
    (array : ArrayType) (n : nat) (c : ArrayCursor)
    (t : gmap TableEntryKey DiskQuotaActiveTableEntry) (s : State) :
  (∀ k e, t !! k = Some e →
          key_segid k = GpIdentity_segindex B
          ∧ reloid e = key_reloid k ∧ segid e = GpIdentity_segindex B) →
  ∃ t' s',
    get_active_tables_stats_loop host B array n c t s = Returned t' s'
    ∧ lwlocks_held s' = lwlocks_held s
    ∧ active_tables_map s' = active_tables_map s
    ∧ ∀ k e, t' !! k = Some e →
             key_segid k = GpIdentity_segindex B
             ∧ reloid e = key_reloid k ∧ segid e = GpIdentity_segindex B.
Proof.
  revert c t s. induction n as [|n IH]; intros c t s Hinv; simpl.
  { exists t, s. done. }
  assert (∀ t1 s1 c1,
            get_active_tables_stats_element host B
              (nth (ptr c) (ARR_DATA array) 0) t s = Returned t1 s1 →
            ∃ t' s',
              get_active_tables_stats_loop host B array n c1 t1 s1
              = Returned t' s'
              ∧ lwlocks_held s' = lwlocks_held s
              ∧ active_tables_map s' = active_tables_map s
              ∧ ∀ k e, t' !! k = Some e →
                       key_segid k = GpIdentity_segindex B
                       ∧ reloid e = key_reloid k
                       ∧ segid e = GpIdentity_segindex B) as Hstep.
  { intros t1 s1 c1 Hel.
    rewrite get_active_tables_stats_element_run in Hel.
    assert (lwlocks_held s1 = lwlocks_held s
            ∧ active_tables_map s1 = active_tables_map s
            ∧ ∃ sz, t1 = <[key_of (nth (ptr c) (ARR_DATA array) 0)
                             (GpIdentity_segindex B) :=
                             {| reloid := nth (ptr c) (ARR_DATA array) 0;
                                segid := GpIdentity_segindex B;
                                tablesize := sz |}]> t)
      as (Hl & Ha & sz & ->).
    { repeat case_match; inversion Hel; subst; simpl; eauto. }
    destruct (IH c1
                (<[key_of (nth (ptr c) (ARR_DATA array) 0)
                     (GpIdentity_segindex B) :=
                     {| reloid := nth (ptr c) (ARR_DATA array) 0;
                        segid := GpIdentity_segindex B;
                        tablesize := sz |}]> t) s1)
      as (t' & s' & Hrun & Hl' & Ha' & Hinv').
    - intros k e Hk.
      destruct (decide (key_of (nth (ptr c) (ARR_DATA array) 0)
                          (GpIdentity_segindex B) = k)) as [<-|Hne].
      + rewrite lookup_insert_eq in Hk. by inversion Hk.
      + rewrite lookup_insert_ne in Hk by done. by apply Hinv.
    - exists t', s'. by rewrite Hl', Ha'. }
  destruct (get_active_tables_stats_element_returns host B
              (nth (ptr c) (ARR_DATA array) 0) t s) as (sz & s1 & Hel).
  destruct (ARR_NULLBITMAP array) as [bits|].
  - case_match; [by apply IH|]. rewrite mbind_run, Hel. by eapply Hstep.
  - rewrite mbind_run, Hel. by eapply Hstep.
Qed.

(** The size service never raises, whatever [pg_table_size] does for any of
    the relations, and never touches the shared table or a lock; every
    entry it returns is stored under its own relation id and carries the
    index of the segment it ran on. *)
Theorem size_service_returns_consistent_entries (host : Host) (B : Backend)
    (array : ArrayType) (s : State) :
  ∃ t s',
    get_active_tables_stats host B array s = Returned t s'
    ∧ lwlocks_held s' = lwlocks_held s
    ∧ active_tables_map s' = active_tables_map s
    ∧ ∀ k e, t !! k = Some e →
             key_segid k = GpIdentity_segindex B
             ∧ reloid e = key_reloid k ∧ segid e = GpIdentity_segindex B.
Proof.
  unfold get_active_tables_stats. apply get_active_tables_stats_loop_keys.
  intros k e Hk. by rewrite lookup_empty in Hk.
Qed.

(** A size call that raises, or a fault raised right after it, is rolled
    back: the relation is reported with size 0, the message is logged as a
    warning, and the relations locked by the transaction are the ones it
    had locked when the sub-transaction began. *)
Theorem failed_size_call_is_rolled_back (host : Host) (B : Backend)
    (relOid : Oid) (t : gmap TableEntryKey DiskQuotaActiveTableEntry)
    (s : State) (res : list Oid) (msg : string) :
  pg_table_size host relOid (xact_resources s) = (res, inl msg)
  ∨ (∃ size, pg_table_size host relOid (xact_resources s) = (res, inr size)
             ∧ fault_injector host "diskquota_fetch_table_stat" = Some msg) →
  get_active_tables_stats_element host B relOid t s
  = Returned
      (<[key_of relOid (GpIdentity_segindex B) :=
           {| reloid := relOid; segid := GpIdentity_segindex B;
              tablesize := 0 |}]> t)
      (set_server_log ((WARNING, msg) :: server_log s) s).
Proof.
  intros Hfail. rewrite get_active_tables_stats_element_run.
  destruct Hfail as [-> | (size & -> & ->)]; done.
Qed.

Lemma failed_size_call_is_rolled_back_witness :
  get_active_tables_stats_element sample_host sample_segment 16386 ∅
    sample_state
  = Returned
      {[key_of 16386 0 := {| reloid := 16386; segid := 0; tablesize := 0 |}]}
      (set_server_log [(WARNING, "relation does not exist")] sample_state).
Proof.
  apply (failed_size_call_is_rolled_back sample_host sample_segment 16386 ∅
           sample_state [16386] "relation does not exist").
  left. reflexivity.
Defined.

(** Once the scan meets a null element it processes no further element:
    the cursor of the null bitmap stays on the null bit, and the call
    returns what had been collected before it. *)
Theorem null_element_ends_the_scan (host : Host) (B : Backend)
    (array : ArrayType) (bits : list Z) (n : nat) (c : ArrayCursor)
    (t : gmap TableEntryKey DiskQuotaActiveTableEntry) (s : State) :
  ARR_NULLBITMAP array = Some bits →
  Z.land (nth (bitmap c) bits 0) (bitmask c) = 0 →
  get_active_tables_stats_loop host B array n c t s = Returned t s.
Proof.
  intros Hbits Hnull. induction n as [|n IH]; simpl; [done|].
  rewrite Hbits, Hnull. simpl. exact IH.
Qed.

Lemma null_element_ends_the_scan_witness :
  get_active_tables_stats_loop sample_host sample_segment
    sample_array_null_first 2 {| ptr := 0; bitmap := 0; bitmask := 1 |} ∅
    sample_state
  = Returned ∅ sample_state.
Proof.
  apply (null_element_ends_the_scan sample_host sample_segment
           sample_array_null_first [2]); reflexivity.
Defined.

(** For an array without nulls every element has its entry in the result,
    under its relation id and the segment's index, whether its size call
    raised or not. *)
Theorem size_service_covers_arrays_without_nulls (host : Host) (B : Backend)
    (array : ArrayType) (s : State) :
  ARR_NULLBITMAP array = None →
  ∃ t s',
    get_active_tables_stats host B array s = Returned t s'
    ∧ ∀ i, (i < Z.to_nat (ArrayGetNItems (ARR_NDIM array) (ARR_DIMS array)))%nat →
           ∃ e, t !! key_of (nth i (ARR_DATA array) 0) (GpIdentity_segindex B)
                = Some e
                ∧ reloid e = nth i (ARR_DATA array) 0
                ∧ segid e = GpIdentity_segindex B.
Proof.
  intros Hnone.
  destruct (get_active_tables_stats_no_nulls host B array s Hnone)
    as (t & s' & Hrun & Hall).
  unfold get_active_tables_stats in Hrun.
  destruct (get_active_tables_stats_loop_keys host B array
              (Z.to_nat (ArrayGetNItems (ARR_NDIM array) (ARR_DIMS array)))
              {| ptr := 0; bitmap := 0; bitmask := 1 |} ∅ s)
    as (t2 & s2 & Hrun2 & _ & _ & Hinv).
  { intros k e Hk. by rewrite lookup_empty in Hk. }
  rewrite Hrun in Hrun2. inversion Hrun2; subst t2 s2.
  exists t, s'. split; [exact Hrun|].
  intros i Hi. destruct (Hall i Hi) as [e He].
  exists e. split; [exact He|].
  destruct (Hinv _ _ He) as (_ & ? & ?). done.
Qed.

Lemma size_service_covers_arrays_without_nulls_witness :
  ∃ t s',
    get_active_tables_stats sample_host sample_segment sample_array
      sample_state = Returned t s'
    ∧ is_Some (t !! key_of 16385 0)
    ∧ is_Some (t !! key_of 16386 0).
Proof.
  destruct (size_service_covers_arrays_without_nulls sample_host
              sample_segment sample_array sample_state eq_refl)
    as (t & s' & Hrun & Hall).
  exists t, s'. split; [exact Hrun|]. split.
  - destruct (Hall 0%nat) as (e & He & _); [vm_compute; lia|]. by exists e.
  - destruct (Hall 1%nat) as (e & He & _); [vm_compute; lia|]. by exists e.
Defined.

(** ** Cold start: loading [diskquota.table_size] *)

(** The query's result is accepted exactly when it is a successful select
    of an oid, an int8 and an int2 column; otherwise [load_table_size]
    raises.  Either way the state is left as it was. *)
Theorem load_table_size_result_accepts_iff (host : Host) (B : Backend)
    (res : SPITupleTable) (m : gmap TableEntryKey DiskQuotaActiveTableEntry) (s : State) :
  returned (load_table_size_result host B res m s)
  = bool_decide (SPI_result res = SPI_OK_SELECT
                 ∧ tupdesc_atttypid res = [OIDOID; INT8OID; INT2OID])
  ∧ state_after (load_table_size_result host B res m s) = s.
Proof.
  unfold load_table_size_result.
  destruct (Z.eqb_spec (SPI_result res) SPI_OK_SELECT) as [Hsel|Hsel]; simpl.
  2: { split; [|done]. symmetry. apply bool_decide_eq_false_2. tauto. }
  destruct (decide (tupdesc_atttypid res = [OIDOID; INT8OID; INT2OID]))
    as [Hatts|Hatts].
  { rewrite Hatts. simpl. split; [|done]. symmetry.
    by apply bool_decide_eq_true_2. }
  rewrite (bool_decide_eq_false_2 (_ ∧ _)) by tauto.
  destruct (Z.eqb_spec (Z.of_nat (length (tupdesc_atttypid res))) 3)
    as [Hlen|Hlen]; simpl; [|done].
  destruct (tupdesc_atttypid res) as [|a [|b [|c [|d rest]]]];
    try (simpl in Hlen; lia).
  simpl.
  destruct (Z.eqb_spec a OIDOID) as [->|]; simpl; [|done].
  destruct (Z.eqb_spec b INT8OID) as [->|]; simpl; [|done].
  destruct (Z.eqb_spec c INT2OID) as [->|]; simpl;
    [by destruct Hatts|done].
Qed.

Lemma load_table_size_row_lookup
    (m : gmap TableEntryKey DiskQuotaActiveTableEntry)
    (tup : list (option Z)) (k : TableEntryKey) :
  is_Some (load_table_size_row m tup !! k)
  ↔ is_Some (m !! k) ∨ row_key tup = Some k.
Proof.
  unfold load_table_size_row, row_key.
  destruct (nth 0 tup None) as [r|]; [|naive_solver].
  destruct (nth 1 tup None) as [sz|]; [|naive_solver].
  destruct (nth 2 tup None) as [sg|]; [|naive_solver].
  fold (key_of r sg).
  destruct (decide (key_of r sg = k)) as [<-|Hne].
  - rewrite lookup_insert_eq. naive_solver.
  - rewrite lookup_insert_ne by done. naive_solver.
Qed.

Lemma foldl_load_table_size_row_lookup (rows : list (list (option Z)))
    (m : gmap TableEntryKey DiskQuotaActiveTableEntry) (k : TableEntryKey) :
  is_Some (foldl load_table_size_row m rows !! k)
  ↔ is_Some (m !! k) ∨ ∃ tup, tup ∈ rows ∧ row_key tup = Some k.
Proof.
  revert m. induction rows as [|row rows IH]; intros m; simpl.
  - split; [by left|]. intros [?|(tup & Hin & _)]; [done|].
    by apply elem_of_nil in Hin.
  - rewrite IH, load_table_size_row_lookup. split.
    + intros [[?|?]|(tup & ? & ?)]; [by left| |].
      * right. exists row. split; [by left|done].
      * right. exists tup. split; [by right|done].
    + intros [?|(tup & Hin & ?)]; [by left; left|].
      apply elem_of_cons in Hin as [->|Hin]; [by left; right|].
      right. by exists tup.
Qed.

(** From a well-formed result, the map holds after the load what it held
    before and one entry for every row without a null, under the row's
    relation id and segment id; a row with a null in any of its three
    columns adds nothing. *)
Theorem load_table_size_loads_the_complete_rows (host : Host)
    (B : Backend) (res : SPITupleTable)
    (m : gmap TableEntryKey DiskQuotaActiveTableEntry) (s : State) :
  SPI_result res = SPI_OK_SELECT →
  tupdesc_atttypid res = [OIDOID; INT8OID; INT2OID] →
  ∃ m',
    load_table_size_result host B res m s = Returned m' s
    ∧ ∀ k, is_Some (m' !! k)
           ↔ is_Some (m !! k)
             ∨ ∃ tup, tup ∈ SPI_vals res ∧ row_key tup = Some k.
Proof.
  intros Hsel Hatts. unfold load_table_size_result.
  rewrite Hsel, Hatts. simpl. eexists. split; [reflexivity|].
  apply foldl_load_table_size_row_lookup.
Qed.

Lemma load_table_size_loads_the_complete_rows_witness :
  ∃ m',
    load_table_size_result sample_host sample_coordinator
      sample_table_size ∅ sample_state
    = Returned m' sample_state
    ∧ is_Some (m' !! key_of 16385 (-1))
    ∧ is_Some (m' !! key_of 16385 0)
    ∧ m' !! key_of 16386 0 = None.
Proof.
  destruct (load_table_size_loads_the_complete_rows sample_host
              sample_coordinator sample_table_size ∅
              sample_state eq_refl eq_refl) as (m' & Hrun & Hkeys).
  exists m'. split; [exact Hrun|]. split; [|split].
  - apply Hkeys. right. exists [Some 16385; Some 12288; Some (-1)].
    split; [by_evaluation|reflexivity].
  - apply Hkeys. right. exists [Some 16385; Some 8192; Some 0].
    split; [by_evaluation|reflexivity].
  - apply eq_None_not_Some. intros Hsome. apply Hkeys in Hsome.
    destruct Hsome as [Hsome|(tup & Hin & Hkey)].
    + rewrite lookup_empty in Hsome. by destruct Hsome.
    + unfold sample_table_size in Hin. simpl in Hin.
      repeat (apply elem_of_cons in Hin as [->|Hin]; [done|]).
      by apply elem_of_nil in Hin.
Defined.

(** ** The oid request *)

Lemma string_app_assoc (a b c : string) : (a +:+ b) +:+ c = a +:+ b +:+ c.
Proof.
  induction a as [|x a IH]; [done|].
  change (String x ((a +:+ b) +:+ c) = String x (a +:+ b +:+ c)).
  by rewrite IH.
Qed.

Lemma string_app_empty_r (a : string) : a +:+ EmptyString = a.
Proof.
  induction a as [|x a IH]; [done|].
  change (String x (a +:+ EmptyString) = String x a).
  by rewrite IH.
Qed.

Lemma foldl_convert_step (nitems : nat)
    (l : list DiskQuotaActiveTableEntry) (str : string) (count : nat) :
  (count + length l = nitems)%nat →
  (foldl (λ (acc : string * nat) (entry : DiskQuotaActiveTableEntry),
            let count := S acc.2 in
            (if negb (count =? nitems)%nat
             then acc.1 +:+ pretty (to_int32 (reloid entry)) +:+ ","
             else acc.1 +:+ pretty (to_int32 (reloid entry)),
             count))
     (str, count) l).1
  = str +:+ String.concat ","
              ((λ r, pretty (to_int32 r)) <$> (reloid <$> l)).
Proof.
  revert str count. induction l as [|x l IH]; intros str count Hlen.
  - simpl. by rewrite string_app_empty_r.
  - cbn [foldl fst snd]. cbv zeta.
    destruct l as [|y l].
    + simpl in Hlen. rewrite (proj2 (Nat.eqb_eq (S count) nitems)) by lia.
      simpl. done.
    + rewrite (proj2 (Nat.eqb_neq (S count) nitems)) by (simpl in Hlen; lia).
      cbn [negb]. rewrite IH by (simpl in *; lia).
      rewrite !fmap_cons. cbn [String.concat].
      by rewrite !string_app_assoc.
Qed.

(** The array literal built from the oid map is well formed: the oids of
    the map, each printed once, with a comma between two of them and none
    after the last, within braces. *)
Theorem convert_map_to_string_is_an_array_literal
    (m : gmap Oid DiskQuotaActiveTableEntry) :
  convert_map_to_string m
  = oid_array_text (reloid <$> (map_to_list m).*2).
Proof.
  unfold convert_map_to_string, oid_array_text. cbv zeta.
  rewrite foldl_convert_step.
  - by rewrite string_app_assoc.
  - by rewrite length_fmap, length_map_to_list.
Qed.

Lemma for_each_result_failed {A} (f : A → PGresult → A) (acc : A)
    (results : list PGresult) (s : State) :
  ¬ Forall (λ r, PQresultStatus r = PGRES_TUPLES_OK) results →
  ∃ msg, for_each_result f acc results s = Raised msg s.
Proof.
  revert acc. induction results as [|r rs IH]; intros acc Hbad.
  - destruct Hbad. constructor.
  - simpl. destruct (Z.eqb_spec (PQresultStatus r) PGRES_TUPLES_OK) as [Hr|Hr];
      simpl; [|by eexists].
    apply IH. intros Hrs. apply Hbad. by constructor.
Qed.

Lemma reported_oids_cons (r : PGresult) (rs : list PGresult) :
  reported_oids (r :: rs)
  = ((λ tup, nth 0 tup 0) <$> PQtuples r) ++ reported_oids rs.
Proof.
  unfold reported_oids, rows_of. simpl.
  rewrite fmap_app, <- list_fmap_compose. done.
Qed.

Lemma foldl_pull_active_list_tuple (tups : list (list Z))
    (m : gmap Oid DiskQuotaActiveTableEntry) (r : Oid) :
  foldl pull_active_list_tuple m tups !! r
  = match m !! r with
    | Some e => Some e
    | None => if decide (r ∈ (λ tup, nth 0 tup 0) <$> tups)
              then Some (fresh_entry r) else None
    end.
Proof.
  revert m. induction tups as [|tup tups IH]; intros m; cbn [foldl].
  - destruct (m !! r); [done|]. rewrite decide_False; [done|].
    rewrite fmap_nil. apply not_elem_of_nil.
  - rewrite IH, fmap_cons. unfold pull_active_list_tuple at 1.
    destruct (m !! nth 0 tup 0) as [e0|] eqn:Hlk.
    + destruct (m !! r) as [e|] eqn:Hr; [done|].
      assert (nth 0 tup 0 ≠ r) by congruence.
      destruct (decide (r ∈ (λ tup, nth 0 tup 0) <$> tups)) as [Hin|Hout].
      * rewrite decide_True; [done|]. by right.
      * rewrite decide_False; [done|]. intros Hc.
        apply elem_of_cons in Hc as [?|?]; done.
    + destruct (decide (nth 0 tup 0 = r)) as [<-|Hne].
      * rewrite lookup_insert_eq, Hlk, decide_True; [done|]. by left.
      * rewrite lookup_insert_ne by done.
        destruct (m !! r); [done|].
        destruct (decide (r ∈ (λ tup, nth 0 tup 0) <$> tups)) as [Hin|Hout].
        -- rewrite decide_True; [done|]. by right.
        -- rewrite decide_False; [done|]. intros Hc.
           apply elem_of_cons in Hc as [?|?]; done.
Qed.

Lemma foldl_pull_active_list (results : list PGresult)
    (m : gmap Oid DiskQuotaActiveTableEntry) (r : Oid) :
  foldl (λ m pgresult, foldl pull_active_list_tuple m (PQtuples pgresult))
    m results !! r
  = match m !! r with
    | Some e => Some e
    | None => if decide (r ∈ reported_oids results)
              then Some (fresh_entry r) else None
    end.
Proof.
  revert m. induction results as [|pg rs IH]; intros m; cbn [foldl].
  - destruct (m !! r); [done|]. rewrite decide_False; [done|].
    apply not_elem_of_nil.
  - rewrite IH, foldl_pull_active_list_tuple, reported_oids_cons.
    destruct (m !! r); [done|].
    destruct (decide (r ∈ (λ tup, nth 0 tup 0) <$> PQtuples pg))
      as [Hin|Hout].
    + rewrite decide_True; [done|]. apply elem_of_app. by left.
    + destruct (decide (r ∈ reported_oids rs)) as [Hin'|Hout'].
      * rewrite decide_True; [done|]. apply elem_of_app. by right.
      * rewrite decide_False; [done|]. intros Hc.
        apply elem_of_app in Hc as [?|?]; done.
Qed.

(** When every segment answers the oid request with tuples, the map the
    coordinator builds is the union of the relation ids they name: one
    entry per relation id, however many segments name it, with size 0 and
    segment -1; and nothing else. *)
Theorem oid_request_unions_the_segments (host : Host) (s : State) :
  Forall (λ r, PQresultStatus r = PGRES_TUPLES_OK) (oid_replies host) →
  ∃ m,
    pull_active_list_from_seg host s = Returned m s
    ∧ ∀ r, m !! r
           = if decide (r ∈ reported_oids (oid_replies host))
             then Some {| reloid := r; segid := -1; tablesize := 0 |}
             else None.
Proof.
  intros Hok. unfold pull_active_list_from_seg. cbv zeta.
  fold fetch_oid_sql. fold (oid_replies host).
  rewrite for_each_result_ok by done.
  eexists. split; [reflexivity|]. intros r.
  by rewrite foldl_pull_active_list, lookup_empty.
Qed.

Lemma oid_request_unions_the_segments_witness :
  ∃ m,
    pull_active_list_from_seg sample_host sample_state
    = Returned m sample_state
    ∧ m !! 16385 = Some {| reloid := 16385; segid := -1; tablesize := 0 |}
    ∧ m !! 16386 = None.
Proof.
  destruct (oid_request_unions_the_segments sample_host sample_state)
    as (m & Hrun & Hm); [by repeat constructor|].
  exists m. split; [exact Hrun|]. split.
  - rewrite Hm. apply decide_True. by_evaluation.
  - rewrite Hm. apply decide_False. by_evaluation.
Defined.



(** ** The size request *)


Lemma rows_of_nfields (results : list PGresult) (nf : Z) (tup : list Z) :
  (nf, tup) ∈ rows_of results →
  ∃ r, r ∈ results ∧ PQnfields r = nf.
Proof.
  unfold rows_of. intros Hin.
  apply list_elem_of_bind in Hin as (r & Hrow & Hr).
  apply list_elem_of_fmap in Hrow as (t & [= -> _] & _). eauto.
Qed.

(** Replies without a third column, as a version-1 installation sends
    them, give cluster totals only: every key of the result has seg_id -1,
    and a relation that is reported has under it the sum, in [Size]
    arithmetic, of the sizes reported for it. *)
Theorem two_column_replies_give_totals_only (host : Host)
    (active_oid_array : string) (s : State) :
  size_replies host active_oid_array ≠ [] →
  Forall (λ r, PQresultStatus r = PGRES_TUPLES_OK)
    (size_replies host active_oid_array) →
  Forall (λ r, PQnfields r ≠ 3) (size_replies host active_oid_array) →
  ∃ m,
    pull_active_table_size_from_seg host ∅ active_oid_array s
    = Returned m
        (set_SEGCOUNT (Z.of_nat (length (size_replies host active_oid_array)))
           s)
    ∧ (∀ k, is_Some (m !! k) → key_segid k = -1)
    ∧ ∀ R, m !! key_of R (-1)
           = if decide (reported_sizes R (size_rows host active_oid_array)
                        = [])
             then None
             else Some {| reloid := R; segid := -1;
                          tablesize :=
                            to_Size (sum_sizes
                                       (reported_sizes R
                                          (size_rows host active_oid_array))) |}.
Proof.
  intros Hne Hok Hcols.
  assert (∀ tup, (3, tup) ∉ size_rows host active_oid_array) as Hno3.
  { intros tup Hin. apply rows_of_nfields in Hin as (r & Hr & H3).
    by apply (proj1 (Forall_forall _ _) Hcols r). }
  destruct (aggregated_rows (size_rows host active_oid_array))
    as (Htot & Hsegs & _).
  { intros tup Hin. by apply Hno3 in Hin. }
  eexists. split; [by apply pull_active_table_size_from_seg_run|].
  split; [|exact Htot].
  intros [R seg] [e He]. simpl.
  destruct (decide (seg = -1)) as [|Hseg]; [done|].
  destruct (Hsegs R seg e Hseg He) as (_ & _ & size & (tup & Hin & _) & _).
  by apply Hno3 in Hin.
Qed.

Lemma two_column_replies_give_totals_only_witness :
  ∃ m,
    pull_active_table_size_from_seg sample_v1_host ∅ "{16385,16387}"
      sample_state
    = Returned m (set_SEGCOUNT 2 sample_state)
    ∧ m !! key_of 16385 (-1)
      = Some {| reloid := 16385; segid := -1; tablesize := 12288 |}
    ∧ m !! key_of 16385 0 = None.
Proof.
  destruct (two_column_replies_give_totals_only sample_v1_host
              "{16385,16387}" sample_state) as (m & Hrun & Hkeys & Htot).
  - done.
  - by repeat constructor.
  - by repeat constructor.
  - exists m. split; [exact Hrun|]. split.
    + rewrite Htot. reflexivity.
    + apply eq_None_not_Some. intros Hsome. by apply Hkeys in Hsome.
Defined.

(** ** The module's interface *)



(** A refresh stops at the first request when a segment fails it: the size
    request is not made, and the state, [SEGCOUNT] included, stays as it
    was. *)
Theorem refresh_stops_when_the_oid_request_fails (host : Host)
    (B : Backend) (s : State) :
  ¬ Forall (λ r, PQresultStatus r = PGRES_TUPLES_OK) (oid_replies host) →
  returned (gp_fetch_active_tables host B false s) = false
  ∧ state_after (gp_fetch_active_tables host B false s) = s.
Proof.
  intros Hbad. unfold gp_fetch_active_tables. cbv zeta.
  rewrite mbind_run. unfold pull_active_list_from_seg. cbv zeta.
  fold fetch_oid_sql. fold (oid_replies host).
  by destruct (for_each_result_failed
                 (λ m pgresult,
                    foldl pull_active_list_tuple m (PQtuples pgresult))
                 ∅ (oid_replies host) s Hbad) as [msg ->].
Qed.

Lemma refresh_stops_when_the_oid_request_fails_witness :
  returned (gp_fetch_active_tables sample_failing_host
                sample_coordinator false sample_state)
  = false
  ∧ SEGCOUNT (state_after
                (gp_fetch_active_tables sample_failing_host
                sample_coordinator false
                   sample_state)) = 0.
Proof.
  destruct (refresh_stops_when_the_oid_request_fails sample_failing_host
              sample_coordinator sample_state) as [Hret Hstate].
  - by_evaluation.
  - split; [exact Hret|]. by rewrite Hstate.
Defined.

(** ** From a probe to the next drain *)

Lemma report_active_table_helper_enters (B : Backend)
    (rnode : RelFileNodeBackend) (s : State) :
  IS_QUERY_DISPATCHER B = false →
  IsRoleMirror B = false →
  dbNode (node rnode) ∈ monitoring_dbid_cache s →
  item_of rnode ∈ active_tables_map s
  ∨ (size (active_tables_map s) < diskquota_max_active_tables B)%nat →
  item_of rnode
  ∈ active_tables_map (state_after (report_active_table_helper B rnode s))
  ∧ relation_cache (state_after (report_active_table_helper B rnode s))
    = relation_cache s.
Proof.
  intros Hqd Hmirror Hmon Hroom.
  rewrite report_active_table_helper_spec. unfold file_probe_spec.
  rewrite Hqd, Hmirror. simpl.
  rewrite (bool_decide_eq_false_2 (_ ∉ _)) by (by intros ?).
  destruct (decide (item_of rnode ∈ active_tables_map s)) as [Hin|Hout].
  { by rewrite (bool_decide_eq_true_2 _ Hin). }
  rewrite (bool_decide_eq_false_2 _ Hout).
  destruct Hroom as [?|Hlt]; [done|].
  rewrite (bool_decide_eq_true_2 _ Hlt). simpl. split; [set_solver|done].
Qed.

(** A storage event reported on a primary segment for a monitored database,
    when the file is already in the shared table or the table has room,
    reaches the next FETCH_ACTIVE_OID of that database: if the file
    resolves to a relation, the relation's primary is in the returned
    set. *)
Theorem reported_file_is_fetched (host : Host) (B : Backend)
    (rnode : RelFileNodeBackend) (concurrent : list RelFileNodeBackend)
    (s : State) :
  IS_QUERY_DISPATCHER B = false →
  IsRoleMirror B = false →
  dbNode (node rnode) ∈ monitoring_dbid_cache s →
  dbNode (node rnode) = MyDatabaseId B →
  item_of rnode ∈ active_tables_map s
  ∨ (size (active_tables_map s) < diskquota_max_active_tables B)%nat →
  relid_of host (swept host s) (item_of rnode) ≠ InvalidOid →
  ∃ stats s',
    (report_active_table_helper B rnode;;
     get_active_tables_oid host B concurrent) s
    = Returned stats s'
    ∧ stats !! primary_of host (swept host s) (item_of rnode)
      = Some {| reloid := primary_of host (swept host s) (item_of rnode);
                segid := -1; tablesize := 0 |}.
Proof.
  intros Hqd Hmirror Hmon Hdb Hroom Hres.
  destruct (report_active_table_helper_enters B rnode s Hqd Hmirror Hmon Hroom)
    as [Hin Hcache].
  destruct (report_active_table_helper_returns B rnode s) as [s1 Hs1].
  rewrite mbind_run, Hs1. rewrite Hs1 in Hin, Hcache. simpl in Hin, Hcache.
  rewrite get_active_tables_oid_run.
  destruct (resolved_after_resolve host B s1) as [Hdom Hval].
  assert (swept host s1 = swept host s) as Hswept
    by (unfold swept; by rewrite Hcache).
  assert (primary_of host (swept host s) (item_of rnode)
          ∈ resolved_ids host B s1) as Hprim.
  { unfold resolved_ids. rewrite Hswept. apply elem_of_map.
    exists (item_of rnode). split; [done|].
    apply elem_of_filter. split; [done|].
    apply elem_of_filter. split; [exact Hdb|exact Hin]. }
  rewrite <- Hdom in Hprim. apply elem_of_dom in Hprim as [e He].
  eexists _, _. split; [reflexivity|].
  rewrite He. f_equal. exact (Hval _ _ He).
Qed.

Lemma reported_file_is_fetched_witness :
  ∃ stats s',
    (report_active_table_helper sample_segment (sample_rnode 16385);;
     get_active_tables_oid sample_host sample_segment []) sample_state
    = Returned stats s'
    ∧ stats !! 16385
      = Some {| reloid := 16385; segid := -1; tablesize := 0 |}.
Proof.
  destruct (reported_file_is_fetched sample_host sample_segment
              (sample_rnode 16385) [] sample_state)
    as (stats & s' & Hrun & Hstats);
    [reflexivity|reflexivity|by_evaluation|reflexivity|
     right; vm_compute; lia|by_evaluation|].
  exists stats, s'. split; [exact Hrun|exact Hstats].
Defined.

(** A drain that resolves at least one entry makes room: with no other
    backend reporting in between, the shared table ends strictly below its
    capacity, so the next storage event is not dropped. *)
Theorem drain_makes_room (host : Host) (B : Backend) (s : State)
    (e : DiskQuotaActiveTableFileEntry) :
  (size (active_tables_map s) ≤ diskquota_max_active_tables B)%nat →
  e ∈ active_tables_map s →
  dbid e = MyDatabaseId B →
  relid_of host (swept host s) e ≠ InvalidOid →
  (size (active_tables_map
           (state_after (get_active_tables_oid host B [] s)))
   < diskquota_max_active_tables B)%nat.
Proof.
  intros Hle Hin Hdb Hres. rewrite get_active_tables_oid_run.
  assert (at_put_back host B [] s
          = set_relation_cache (swept host s)
              (set_active_tables_map (kept B s) s)) as -> by done.
  simpl.
  assert (enter_all B (elements (unresolved host B s)) (kept B s)
          ⊆ active_tables_map s ∖ {[e]}) as Hsub.
  { etrans; [apply enter_all_upper|].
    rewrite list_to_set_elements_L. unfold kept, unresolved, drained.
    intros x. rewrite elem_of_union, elem_of_difference, !elem_of_filter,
      elem_of_singleton.
    intros [[Hne Hx]|[Hun [_ Hx]]]; (split; [done|]); intros ->; done. }
  apply subseteq_size in Hsub.
  rewrite size_difference in Hsub by set_solver.
  rewrite size_singleton in Hsub.
  assert (size (active_tables_map s) ≠ 0%nat); [|lia].
  intros Hzero. apply size_empty_iff in Hzero. set_solver.
Qed.

Lemma drain_makes_room_witness :
  (size (active_tables_map
           (state_after (get_active_tables_oid sample_host sample_segment3 []
                           sample_active_state)))
   < 3)%nat.
Proof.
  apply (drain_makes_room sample_host sample_segment3 sample_active_state
           (item_of (sample_rnode 16385))).
  - vm_compute. lia.
  - by_evaluation.
  - reflexivity.
  - by_evaluation.
Defined.
